(** * Real-Estate agent: slot extraction, rule engine, catalog search

    A shallow embedding of the conversation core of the agent
    ([agent.py]) and of the listing search ([property_database.py]),
    with the properties of the written specification that concern them.

    Python strings are sequences of Unicode code points; they are modelled
    as lists of code points ([text]).  Literals of the source are written
    as UTF-8 string literals and decoded by [U]. *)

From Stdlib Require Import ZArith NArith Lia Bool.
From Stdlib Require Import Ascii String.
From stdpp Require Import gmap strings list fin_maps.

Set Default Proof Using "Type".
Local Open Scope list_scope.

(* ===================================================================== *)
(** ** Text: code points, literals, substring test                        *)
(* ===================================================================== *)

Module Text.

(** A Python [str]: the list of its code points. *)
Abbreviation text := (list N).

(** Decoder of well-formed UTF-8, used only to write the literals of the
    source.  [need] is the number of continuation bytes still expected and
    [acc] the bits gathered so far. *)
Fixpoint utf8_decode (bs : list N) (need : nat) (acc : N) : text :=
  match bs with
  | [] => []
  | b :: bs' =>
      match need with
      | O =>
          if (b <? 128)%N then b :: utf8_decode bs' 0 0%N
          else if (b <? 224)%N then utf8_decode bs' 1 (b - 192)%N
          else if (b <? 240)%N then utf8_decode bs' 2 (b - 224)%N
          else utf8_decode bs' 3 (b - 240)%N
      | S O => (acc * 64 + (b - 128))%N :: utf8_decode bs' 0 0%N
      | S n => utf8_decode bs' n (acc * 64 + (b - 128))%N
      end
  end.

Fixpoint bytes_of (s : string) : list N :=
  match s with
  | EmptyString => []
  | String a s' => N_of_ascii a :: bytes_of s'
  end.

(** [U "..."] is the text of a source literal. *)
Definition U (s : string) : text := utf8_decode (bytes_of s) 0 0%N.
Arguments U : simpl never.

Definition cp_eqb (a b : N) : bool := (a =? b)%N.

(** [strip_prefix p s] is [Some r] when [s = p ++ r]. *)
Fixpoint strip_prefix (p s : text) : option text :=
  match p with
  | [] => Some s
  | a :: p' =>
      match s with
      | [] => None
      | b :: s' => if cp_eqb a b then strip_prefix p' s' else None
      end
  end.

Definition starts_with (p s : text) : bool :=
  match strip_prefix p s with Some _ => true | None => false end.

(** Python's [needle in hay] on two strings. *)
Fixpoint contains (needle hay : text) : bool :=
  starts_with needle hay
  || match hay with
     | [] => false
     | _ :: hay' => contains needle hay'
     end.

(** Equality of two strings, and [x in l] for a list of strings. *)
Fixpoint text_eqb (a b : text) : bool :=
  match a, b with
  | [], [] => true
  | x :: a', y :: b' => cp_eqb x y && text_eqb a' b'
  | _, _ => false
  end.

Definition text_mem (x : text) (l : list text) : bool := existsb (text_eqb x) l.

(** [sep.join(parts)]. *)
Fixpoint join (sep : text) (parts : list text) : text :=
  match parts with
  | [] => []
  | [p] => p
  | p :: ps => p ++ sep ++ join sep ps
  end.

End Text.

Import Text.


(* ===================================================================== *)
(** ** Character classes and integer conversion of the interpreter        *)
(* ===================================================================== *)

Module Py.

(** Code points of the zero digit of every decimal-digit block (Unicode
    category Nd).  Each block holds the ten digits 0..9 in order.  These
    are the characters [\d] matches in a [str] pattern and [int] accepts. *)
Definition decimal_zeros : list N :=
  [48; 1632; 1776; 1984; 2406; 2534; 2662; 2790; 2918; 3046; 3174; 3302;
   3430; 3558; 3664; 3792; 3872; 4160; 4240; 6112; 6160; 6470; 6608; 6784;
   6800; 6992; 7088; 7232; 7248; 42528; 43216; 43264; 43472; 43504; 43600;
   44016; 65296; 66720; 68912; 69734; 69872; 69942; 70096; 70384; 70736;
   70864; 71248; 71360; 71472; 71904; 72016; 72784; 73040; 73120; 92768;
   92864; 93008; 120782; 120792; 120802; 120812; 120822; 123200; 123632;
   125264; 130032]%N.

Fixpoint digit_in (zeros : list N) (c : N) : option N :=
  match zeros with
  | [] => None
  | z :: zs =>
      if ((z <=? c) && (c <? z + 10))%N then Some (c - z)%N
      else digit_in zs c
  end.

(** The decimal value of a digit character, [None] for any other one. *)
Definition digit_value (c : N) : option N := digit_in decimal_zeros c.

(** [\d] *)
Definition is_digit (c : N) : bool :=
  match digit_value c with Some _ => true | None => false end.

(** Whitespace code points: [str.isspace], [\s], and what [str.strip]
    removes. *)
Definition whitespace : list N :=
  [9; 10; 11; 12; 13; 28; 29; 30; 31; 32; 133; 160; 5760; 8192; 8193; 8194;
   8195; 8196; 8197; 8198; 8199; 8200; 8201; 8202; 8232; 8233; 8239; 8287;
   12288]%N.

(** [\s] *)
Definition is_space (c : N) : bool := existsb (cp_eqb c) whitespace.

(** [.] without the DOTALL flag: anything but a line feed. *)
Definition is_dot (c : N) : bool := negb (cp_eqb c 10).

(** The comma [','] and the Arabic comma ['،']. *)
Definition comma : N := 44.
Definition arabic_comma : N := 1548.

(** [\d] or a comma: the class [[\d,]]. *)
Definition is_digit_or_comma (c : N) : bool := is_digit c || cp_eqb c comma.

(** [s.lstrip()], [s.rstrip()], [s.strip()]. *)
Fixpoint lstrip (s : text) : text :=
  match s with
  | c :: s' => if is_space c then lstrip s' else s
  | [] => []
  end.

Definition rstrip (s : text) : text := rev (lstrip (rev s)).

Definition strip (s : text) : text := rstrip (lstrip s).

(** [s.replace(c, '')] for a one-character [c]. *)
Definition remove_char (c : N) (s : text) : text :=
  List.filter (fun x => negb (cp_eqb x c)) s.

(** [s.split(c)] for a one-character separator: never empty, the pieces
    between the separators, empty pieces kept. *)
Fixpoint split (c : N) (s : text) : list text :=
  match s with
  | [] => [[]]
  | x :: s' =>
      if cp_eqb x c then [] :: split c s'
      else match split c s' with
           | p :: ps => (x :: p) :: ps
           | [] => [[x]]
           end
  end.

(** Digits of an integer literal after the sign: decimal digits, where a
    single underscore may stand between two digits.  [acc] is the value
    read so far, [prev_digit] tells whether the previous character was a
    digit. *)
Fixpoint int_digits (s : text) (acc : N) (prev_digit : bool) : option N :=
  match s with
  | [] => if prev_digit then Some acc else None
  | c :: s' =>
      match digit_value c with
      | Some d => int_digits s' (acc * 10 + d)%N true
      | None =>
          if cp_eqb c 95 && prev_digit then
            match s' with
            | [] => None
            | _ => int_digits s' acc false
            end
          else None
      end
  end.

(** [int(s)] for a string, base ten; [None] is [ValueError].  The
    interpreter's optional cap on the length of the converted digit string
    is a runtime setting and is left out. *)
Definition py_int (s : text) : option Z :=
  match strip s with
  | [] => None
  | c :: ds =>
      if cp_eqb c 45 then
        option_map (fun n => (- Z.of_N n)%Z) (int_digits ds 0 false)
      else if cp_eqb c 43 then option_map Z.of_N (int_digits ds 0 false)
      else option_map Z.of_N (int_digits (c :: ds) 0 false)
  end.


(** Decimal digits of a natural number, most significant first. *)
Fixpoint digits_fuel (fuel : nat) (n : N) (acc : text) : text :=
  match fuel with
  | O => acc
  | S fuel' =>
      let acc' := (48 + n mod 10)%N :: acc in
      if (n / 10 =? 0)%N then acc' else digits_fuel fuel' (n / 10)%N acc'
  end.

Definition N_to_text (n : N) : text := digits_fuel (S (N.size_nat n)) n [].

(** [str(z)] for an integer. *)
Definition Z_to_text (z : Z) : text :=
  if (z <? 0)%Z then 45%N :: N_to_text (Z.abs_N z) else N_to_text (Z.to_N z).

End Py.

Import Py.

(* ===================================================================== *)
(** ** The fragment of the [re] module the agent uses                     *)
(* ===================================================================== *)

Module Regex.

(** Patterns of the source are built from literals, character classes, a
    greedy star over a character class, sequence, ordered alternation and
    numbered capture groups. *)
Inductive regex : Type :=
  | Lit (l : text)
  | Cls (p : N -> bool)
  | StarCls (p : N -> bool)
  | Seq (r1 r2 : regex)
  | Alt (r1 r2 : regex)
  | Grp (i : nat) (r : regex).

(** Captured groups, the most recent binding first. *)
Abbreviation groups := (list (nat * text)).

Fixpoint group (i : nat) (g : groups) : option text :=
  match g with
  | [] => None
  | (j, s) :: g' => if Nat.eqb i j then Some s else group i g'
  end.

(** Greedy star with backtracking: take one more character when the class
    allows it and the rest of the pattern then succeeds, otherwise hand the
    current position to the continuation. *)
Fixpoint star {A : Type} (p : N -> bool) (s : text) (k : text -> option A)
  : option A :=
  match s with
  | c :: s' =>
      if p c then
        match star p s' k with
        | Some x => Some x
        | None => k s
        end
      else k s
  | [] => k s
  end.

(** Backtracking matcher anchored at the head of [s].  The continuation [k]
    receives the unread text and the groups; [None] makes the matcher try
    its next choice, in the order the [re] engine tries them. *)
Fixpoint bt {A : Type} (r : regex) (s : text) (g : groups)
  (k : text -> groups -> option A) : option A :=
  match r with
  | Lit l =>
      match strip_prefix l s with
      | Some s' => k s' g
      | None => None
      end
  | Cls p =>
      match s with
      | c :: s' => if p c then k s' g else None
      | [] => None
      end
  | StarCls p => star p s (fun s' => k s' g)
  | Seq r1 r2 => bt r1 s g (fun s' g' => bt r2 s' g' k)
  | Alt r1 r2 =>
      match bt r1 s g k with
      | Some x => Some x
      | None => bt r2 s g k
      end
  | Grp i r' =>
      bt r' s g (fun s' g' => k s' ((i, take (length s - length s') s) :: g'))
  end.

(** A match found by [search]: the text before it, the matched text, the
    text after it and the groups. *)
Record found : Type := Found {
  before : text;
  matched : text;
  after : text;
  captures : groups
}.

Definition match_at (r : regex) (s : text) : option (text * groups) :=
  bt r s [] (fun s' g => Some (s', g)).

(** [re.search(r, s)]: the match at the leftmost position that has one.
    [pre] is the text already skipped, reversed. *)
Fixpoint search_from (r : regex) (pre : text) (s : text) : option found :=
  match match_at r s with
  | Some (rest, g) =>
      Some (Found (rev pre) (take (length s - length rest) s) rest g)
  | None =>
      match s with
      | [] => None
      | c :: s' => search_from r (c :: pre) s'
      end
  end.

Definition search (r : regex) (s : text) : option found := search_from r [] s.

(** [re.findall(r, s)] for a pattern without groups: the matched texts of
    the successive non-overlapping matches, left to right. *)
Fixpoint findall_fuel (fuel : nat) (r : regex) (s : text) : list text :=
  match fuel with
  | O => []
  | S fuel' =>
      match search r s with
      | None => []
      | Some f =>
          matched f ::
          match matched f, after f with
          | [], [] => []
          | [], _ :: rest => findall_fuel fuel' r rest
          | _ :: _, rest => findall_fuel fuel' r rest
          end
      end
  end.

Definition findall (r : regex) (s : text) : list text :=
  findall_fuel (S (length s)) r s.

(** Alternation of literals, [(l1|l2|...)]. *)
Fixpoint alt_lits (ls : list text) : regex :=
  match ls with
  | [] => Cls (fun _ => false)
  | [l] => Lit l
  | l :: ls' => Alt (Lit l) (alt_lits ls')
  end.

(** What a pattern matches, as a relation: [matches r s g g'] when [r] can
    match exactly the text [s], turning the groups [g] into [g']. *)
Inductive matches : regex -> text -> groups -> groups -> Prop :=
  | M_Lit l g : matches (Lit l) l g g
  | M_Cls (p : N -> bool) c g : p c = true -> matches (Cls p) [c] g g
  | M_Star (p : N -> bool) s g : forallb p s = true -> matches (StarCls p) s g g
  | M_Seq r1 r2 s1 s2 g g1 g2 :
      matches r1 s1 g g1 -> matches r2 s2 g1 g2 ->
      matches (Seq r1 r2) (s1 ++ s2) g g2
  | M_AltL r1 r2 s g g' : matches r1 s g g' -> matches (Alt r1 r2) s g g'
  | M_AltR r1 r2 s g g' : matches r2 s g g' -> matches (Alt r1 r2) s g g'
  | M_Grp i r s g g' : matches r s g g' -> matches (Grp i r) s g ((i, s) :: g').

End Regex.

Import Regex.

(* ===================================================================== *)
(** ** Values, exceptions, data of the agent                               *)
(* ===================================================================== *)

Module Data.

(** [ConversationPhase] of [config.py]. *)
Inductive ConversationPhase : Type :=
  | DISCOVERY | SUMMARY | SUGGESTION | PERSUASION
  | ALTERNATIVE | URGENCY | CLOSING.

(** The price of a property record: a number or a string. *)
Inductive price : Type :=
  | PriceInt (z : Z)
  | PriceStr (s : text).

(** A property record [{type, location, price, features}]; the [features]
    key may be missing. *)
Record property : Type := Property {
  p_type : text;
  p_location : text;
  p_price : price;
  p_features : option text
}.

(** Values a slot of [user_info] may hold. *)
Inductive value : Type :=
  | VNone
  | VStr (s : text)
  | VInt (z : Z)
  | VList (l : list text)
  | VDict (p : property).

(** The slot store [user_info]: a dictionary from slot names to values. *)
Abbreviation slots := (gmap string value).

(** Exceptions the modelled code can raise. *)
Inductive exn : Type := TypeError | ValueError | IndexError.

Inductive result (A : Type) : Type :=
  | Ok (a : A)
  | Raise (e : exn).
Arguments Ok {A} a.
Arguments Raise {A} e.

#[global] Instance result_ret : MRet result := fun A a => Ok a.
#[global] Instance result_bind : MBind result := fun A B f m =>
  match m with
  | Ok a => f a
  | Raise e => Raise e
  end.

(** [try: m except: h] with a bare [except]. *)
Definition try_except {A : Type} (m : result A) (h : A) : A :=
  match m with
  | Ok a => a
  | Raise _ => h
  end.

(** One entry of [budget_advice] and one of [property_priority] in
    [rules.json]. *)
Record budget_rule : Type := BudgetRule {
  condition : text;
  b_response : text
}.

Record priority_rule : Type := PriorityRule {
  feature : text;
  p_response : text
}.

(** The rule table; a missing file or a missing section is an empty list. *)
Record rules : Type := Rules {
  budget_advice : list budget_rule;
  property_priority : list priority_rule
}.

(** What the knowledge retriever hands to the agent: the
    [suggested_questions] of [phase_knowledge] and the
    [relevant_properties]; a missing key is an empty list. *)
Record knowledge : Type := Knowledge {
  suggested_questions : list text;
  relevant_properties : list property
}.

(** What the reasoning engine returns: [extracted_info] (empty when the key
    is missing) and [next_phase] ([None] when missing or null). *)
Record reasoning_result : Type := ReasoningResult {
  extracted_info : slots;
  next_phase : option ConversationPhase
}.

Inductive role : Type := User | Assistant.

(** The mutable fields of a [RealEstateAgent].  [context] only ever holds a
    second reference to [user_info] and is not kept apart. *)
Record agent : Type := Agent {
  user_info : slots;
  selected_properties : list property;
  last_mentioned_property : option property;
  current_phase : ConversationPhase;
  conversation_history : list (role * text)
}.

(** Functions of the interpreter that are taken as given: Unicode
    lower-casing and the [repr] of lists and dictionaries that an f-string
    prints. *)
Class Runtime : Type := {
  str_lower : text -> text;
  repr_list : list text -> text;
  repr_dict : property -> text
}.

(** The collaborators of [process_message]. *)
Class Collaborators : Type := {
  retrieve : text -> ConversationPhase -> slots -> knowledge;
  analyze : text -> ConversationPhase -> list (role * text) -> knowledge ->
            slots -> reasoning_result
}.

(** Truth value of a Python value. *)
Definition truthy (v : value) : bool :=
  match v with
  | VNone => false
  | VStr s => match s with [] => false | _ => true end
  | VInt z => negb (z =? 0)%Z
  | VList l => match l with [] => false | _ => true end
  | VDict _ => true
  end.

(** [d.get(k)] followed by a truth test: a missing key gives [None]. *)
Definition truthy_get (k : string) (d : slots) : bool :=
  match d !! k with
  | Some v => truthy v
  | None => false
  end.

(** [k in d]. *)
Definition has_key (k : string) (d : slots) : bool :=
  match d !! k with
  | Some _ => true
  | None => false
  end.

(** The keys of a property dictionary, in order. *)
Definition property_keys (p : property) : list text :=
  [U "type"; U "location"; U "price"]
  ++ match p_features p with Some _ => [U "features"] | None => [] end.

(** [needle in v] for a string [needle]. *)
Definition py_in (needle : text) (v : value) : result bool :=
  match v with
  | VStr s => Ok (contains needle s)
  | VList l => Ok (text_mem needle l)
  | VDict p => Ok (text_mem needle (property_keys p))
  | VNone | VInt _ => Raise TypeError
  end.

(** [for f in v]: the items the loop visits. *)
Definition py_iter (v : value) : result (list text) :=
  match v with
  | VStr s => Ok (map (fun c => [c]) s)
  | VList l => Ok l
  | VDict p => Ok (property_keys p)
  | VNone | VInt _ => Raise TypeError
  end.

(** [re.findall(r, v)]. *)
Definition re_findall (r : regex) (v : value) : result (list text) :=
  match v with
  | VStr s => Ok (findall r s)
  | _ => Raise TypeError
  end.

(** [l[0]]. *)
Definition index0 {A : Type} (l : list A) : result A :=
  match l with
  | x :: _ => Ok x
  | [] => Raise IndexError
  end.

(** [int(s)]. *)
Definition int_of (s : text) : result Z :=
  match py_int s with
  | Some z => Ok z
  | None => Raise ValueError
  end.

(** What an f-string prints for a value. *)
Definition py_str `{Runtime} (v : value) : text :=
  match v with
  | VNone => U "None"
  | VStr s => s
  | VInt z => Z_to_text z
  | VList l => repr_list l
  | VDict p => repr_dict p
  end.

Definition price_str (p : price) : text :=
  match p with
  | PriceInt z => Z_to_text z
  | PriceStr s => s
  end.

(** The line feed of the ["\n"] escapes. *)
Definition nl : text := [10%N].

End Data.

Import Data.

(* ===================================================================== *)
(** ** [RealEstateAgent]                                                   *)
(* ===================================================================== *)

Module RealEstateAgent.

(** *** [_basic_info_extraction] *)

Definition locations : list text :=
  [U "القاهرة"; U "الاسكندرية"; U "الجيزة"; U "المعادي"; U "مدينة نصر";
   U "6 أكتوبر"; U "التجمع"; U "الشروق"; U "العبور"; U "الرحاب"; U "مدينتي";
   U "الشيخ زايد"; U "المهندسين"; U "الدقي"; U "الزمالك"; U "وسط البلد";
   U "مصر الجديدة"; U "حلوان"].

(** The loop over [locations]; the assignment is followed by [break]. *)
Fixpoint scan_locations (ls : list text) (message : text) (ui : slots) : slots :=
  match ls with
  | [] => ui
  | location :: ls' =>
      if contains location message && negb (has_key "location" ui)
      then <["location" := VStr location]> ui
      else scan_locations ls' message ui
  end.

Definition unit_tokens : list text :=
  [U "جنيه"; U "الف"; U "مليون"; U "k"; U "m"].

(** [budget_pattern]: group 1 is [\d] followed by a greedy star of the
    class [[\d,]]; then a greedy star of [\s]; then group 2, the
    alternation of the unit tokens in the order of the source. *)
Definition budget_pattern : regex :=
  Seq (Grp 1 (Seq (Cls is_digit) (StarCls is_digit_or_comma)))
      (Seq (StarCls is_space) (Grp 2 (alt_lits unit_tokens))).

Definition thousand_label : text := U "ألف جنيه".
Definition million_label : text := U "مليون جنيه".
Definition plain_label : text := U "جنيه".

(** The conditional expression inside the f-string of the budget. *)
Definition unit_label (unit : text) : text :=
  if text_mem unit [U "k"; U "الف"] then thousand_label
  else if text_mem unit [U "m"; U "مليون"] then million_label
  else plain_label.

Definition scan_budget (message : text) (ui : slots) : slots :=
  match search budget_pattern message with
  | Some budget_match =>
      if negb (has_key "budget" ui) then
        match group 1 (captures budget_match), group 2 (captures budget_match) with
        | Some g1, Some unit =>
            let amount := remove_char comma g1 in
            let budget := amount ++ U " " ++ unit_label unit in
            <["budget" := VStr budget]> ui
        | _, _ => ui
        end
      else ui
  | None => ui
  end.

Definition property_types : list (text * list text) :=
  [(U "شقة", [U "شقة"; U "شقه"; U "apartment"]);
   (U "فيلا", [U "فيلا"; U "فيلات"; U "villa"]);
   (U "دوبلكس", [U "دوبلكس"; U "duplex"]);
   (U "ستوديو", [U "ستوديو"; U "studio"]);
   (U "محل", [U "محل"; U "محلات"; U "shop"]);
   (U "مكتب", [U "مكتب"; U "مكاتب"; U "office"])].

(** The inner loop over the keywords of one type; [break] leaves only this
    loop. *)
Fixpoint scan_keywords (prop_type : text) (keywords : list text)
  (message_lower : text) (ui : slots) : slots :=
  match keywords with
  | [] => ui
  | keyword :: keywords' =>
      if contains keyword message_lower && negb (has_key "property_type" ui)
      then <["property_type" := VStr prop_type]> ui
      else scan_keywords prop_type keywords' message_lower ui
  end.

(** The outer loop over [property_types.items()]. *)
Fixpoint scan_types (types : list (text * list text)) (message_lower : text)
  (ui : slots) : slots :=
  match types with
  | [] => ui
  | (prop_type, keywords) :: types' =>
      scan_types types' message_lower
        (scan_keywords prop_type keywords message_lower ui)
  end.

Definition _basic_info_extraction `{Runtime} (message : text) (ui : slots) : slots :=
  let message_lower := str_lower message in
  let ui1 := scan_locations locations message ui in
  let ui2 := scan_budget message ui1 in
  scan_types property_types message_lower ui2.

(** *** [_is_reference_to_previous_property] *)

Definition vague_words : list text :=
  [U "هي"; U "ده"; U "دي"; U "العقار ده"; U "العرض ده"].

Definition negative_phrases : list text :=
  [U "مش"; U "ما عجبني"; U "ما عجباني"; U "ما عجبها"; U "ما حبيتها"].

(** The pattern "{word}.*(مش|ما عجبني|ما عجباني|ما عجبها|ما حبيتها)". *)
Definition reference_pattern (word : text) : regex :=
  Seq (Lit word) (Seq (StarCls is_dot) (Grp 1 (alt_lits negative_phrases))).

Definition reference_patterns : list regex := map reference_pattern vague_words.

Definition _is_reference_to_previous_property `{Runtime} (message : text) : bool :=
  existsb (fun p => match search p (str_lower message) with
                    | Some _ => true
                    | None => false
                    end)
          reference_patterns.

(** The sentinel stored in [refers_to] when no property was shown yet. *)
Definition unresolved : text := U "غير واضح".

(** *** [_apply_rule_logic] *)

Definition million_word : text := U "مليون".
Definition thousand_word : text := U "ألف".

(** [\d+] *)
Definition digits_pattern : regex := Seq (Cls is_digit) (StarCls is_digit).

(** [[r["response"] for r in budget_advice if r["condition"] == c]] *)
Definition budget_responses (rs : rules) (c : text) : list text :=
  map b_response (List.filter (fun r => text_eqb (condition r) c) (budget_advice rs)).

(** The budget part of [_apply_rule_logic]. *)
Definition budget_logic (rs : rules) (ui : slots) : result (list text) :=
  let budget_value := default (VStr []) (ui !! "budget") in
  is_million ← py_in million_word budget_value;
  if is_million : bool then mret (budget_responses rs (U "budget_high"))
  else
    is_thousand ← py_in thousand_word budget_value;
    if is_thousand : bool then
      mret (try_except
              (runs ← re_findall digits_pattern budget_value;
               first ← index0 runs;
               numeric ← int_of first;
               if (numeric <? 500)%Z
               then mret (budget_responses rs (U "budget_low"))
               else mret (budget_responses rs (U "budget_mid")))
              [])
    else mret [].

(** The feature tags the second part works on. *)
Definition rule_features (ui : slots) (property_data : option property)
  : result (list text) :=
  match property_data ≫= p_features with
  | Some fs => mret (map strip (split arabic_comma fs))
  | None =>
      match ui !! "features" with
      | Some v => py_iter v
      | None => mret []
      end
  end.

(** The two nested loops over the features and the priority rules. *)
Definition feature_logic (rs : rules) (features : list text) : list text :=
  flat_map (fun f =>
              map p_response
                  (List.filter (fun rule => contains (feature rule) f)
                          (property_priority rs)))
           features.

Definition _apply_rule_logic (rs : rules) (ui : slots)
  (property_data : option property) : result (list text) :=
  advice ← budget_logic rs ui;
  features ← rule_features ui property_data;
  mret (advice ++ feature_logic rs features).

(** *** The renderers of the phases *)

(** The list [missing] of [_discovery_response]. *)
Definition discovery_missing (ui : slots) : list text :=
  (if negb (truthy_get "location" ui) then [U "المكان"] else [])
  ++ (if negb (truthy_get "budget" ui) then [U "الميزانية"] else [])
  ++ (if negb (truthy_get "property_type" ui) then [U "نوع العقار"] else []).

Definition _discovery_response (ui : slots) (kn : knowledge) : text :=
  match discovery_missing ui with
  | [] => U "تمام! كده أنا عرفت اللي محتاجه، نراجع المعلومات؟"
  | missing =>
      let extra :=
        match suggested_questions kn with
        | q :: _ => nl ++ U "مثلاً: " ++ q
        | [] => []
        end in
      U "ممكن تقولي " ++ join (U ", ") missing
      ++ U "؟ علشان أقدر أساعدك بشكل أفضل." ++ extra
  end.

(** One line of the summary for a slot that is a key of [user_info]. *)
Definition summary_line `{Runtime} (prefix : text) (k : string) (ui : slots)
  : list text :=
  match ui !! k with
  | Some v => [prefix ++ py_str v]
  | None => []
  end.

(** The list [summary] of [_summary_response]. *)
Definition summary_lines `{Runtime} (ui : slots) : list text :=
  summary_line (U "📍 الموقع: ") "location" ui
  ++ summary_line (U "💰 الميزانية: ") "budget" ui
  ++ summary_line (U "🏠 النوع: ") "property_type" ui.

Definition _summary_response `{Runtime} (rs : rules) (ui : slots) : result text :=
  let summary := summary_lines ui in
  advice ← _apply_rule_logic rs ui None;
  mret (U "دي المعلومات اللي جمعتها:" ++ nl ++ join nl summary
        ++ match advice with
           | [] => []
           | _ => nl ++ nl ++ U "🧠 نصيحة:" ++ nl ++ join nl advice
           end
        ++ nl ++ U "هل الكلام ده مظبوط؟").

Definition no_match_message : text :=
  U "معرفتش ألاقي عقارات بالمواصفات دي، تحب نغيّر شوية في الطلب؟".

Definition property_line (prop : property) : text :=
  U "- " ++ p_type prop ++ U " في " ++ p_location prop ++ U " بـ "
  ++ price_str (p_price prop) ++ U " جنيه" ++ nl.

(** [_suggest_properties] writes two fields of the agent before it calls
    the rule engine, so the agent after the call is returned beside the
    reply or the exception. *)
Definition _suggest_properties (rs : rules) (st : agent) (ui : slots)
  (kn : knowledge) : result text * agent :=
  match relevant_properties kn with
  | [] => (Ok no_match_message, st)
  | (first :: _) as matching_properties =>
      let st' := {| user_info := user_info st;
                    selected_properties := matching_properties;
                    last_mentioned_property := Some first;
                    current_phase := current_phase st;
                    conversation_history := conversation_history st |} in
      let reply := U "🏡 العقارات دي ممكن تعجبك:" ++ nl
                   ++ concat (map property_line matching_properties) in
      (extra ← _apply_rule_logic rs ui (Some first);
       mret (reply
             ++ match extra with
                | [] => []
                | _ => nl ++ U "🧠 ملاحظات:" ++ nl ++ join nl extra
                end
             ++ nl ++ U "هل في واحد منهم شد انتباهك؟"),
       st')
  end.

Definition persuasion_response (ui : slots) : text :=
  match ui !! "refers_to" with
  | Some (VDict referred) =>
      U "ليه مش عاجبك؟ ده فيه "
      ++ default (U "مميزات رائعة") (p_features referred)
      ++ U " وموقعه في " ++ p_location referred ++ U "."
  | _ => U "ممكن توضح إيه اللي مش عاجبك؟ نقدر نعرض بديل."
  end.

(** The dispatch on the phase.  The greeting after the last [elif] of the
    source answers a phase outside the enumeration and cannot be reached
    with a [ConversationPhase]. *)
Definition _generate_response `{Runtime} (rs : rules) (st : agent)
  (kn : knowledge) : result text * agent :=
  let ui := user_info st in
  match current_phase st with
  | DISCOVERY => (Ok (_discovery_response ui kn), st)
  | SUMMARY => (_summary_response rs ui, st)
  | SUGGESTION => _suggest_properties rs st ui kn
  | PERSUASION => (Ok (persuasion_response ui), st)
  | ALTERNATIVE =>
      (Ok (U "ممكن نعرض عليك اختيارات تانية قريبة من اللي بتحبّه."), st)
  | URGENCY => (Ok (U "الفرص دي مش بتستنى! تحب نكمل إجراءات المعاينة؟"), st)
  | CLOSING =>
      (Ok (U "تمام، ابعتلي اسمك ورقم تليفونك وهنكلمك في أقرب وقت."), st)
  end.

(** The three required slots with the label [_discovery_response] prompts
    with and the prefix [_summary_response] prints. *)
Definition required_slots : list (string * text * text) :=
  [("location", U "المكان", U "📍 الموقع: ");
   ("budget", U "الميزانية", U "💰 الميزانية: ");
   ("property_type", U "نوع العقار", U "🏠 النوع: ")].

(** Values that [in] and [for] accept as their container: strings, lists
    and dictionaries. *)
Definition is_container (v : value) : bool :=
  match v with
  | VNone | VInt _ => false
  | VStr _ | VList _ | VDict _ => true
  end.

(** The slot, when present, holds a container. *)
Definition container_slot (k : string) (ui : slots) : bool :=
  match ui !! k with
  | Some v => is_container v
  | None => true
  end.

(** *** [process_message] *)

(** The slot store after the reference check of [process_message]. *)
Definition resolve_reference `{Runtime} (message : text)
  (last : option property) (ui : slots) : slots :=
  if _is_reference_to_previous_property message then
    <["refers_to" := match last with
                     | Some p => VDict p
                     | None => VStr unresolved
                     end]> ui
  else ui.

(** The agent when [process_message] reaches [_generate_response]. *)
Definition before_response `{Runtime} `{Collaborators} (user_message : text)
  (st : agent) : agent * knowledge :=
  let history := conversation_history st ++ [(User, user_message)] in
  let ui1 := _basic_info_extraction user_message (user_info st) in
  let relevant_knowledge := retrieve user_message (current_phase st) ui1 in
  let reasoning := analyze user_message (current_phase st) history
                           relevant_knowledge ui1 in
  let ui2 := if decide (extracted_info reasoning = ∅) then ui1
             else extracted_info reasoning ∪ ui1 in
  let ui3 := resolve_reference user_message (last_mentioned_property st) ui2 in
  let phase := default (current_phase st) (next_phase reasoning) in
  ({| user_info := ui3;
      selected_properties := selected_properties st;
      last_mentioned_property := last_mentioned_property st;
      current_phase := phase;
      conversation_history := history |},
   relevant_knowledge).

(** [process_message]: the reply, or the exception that escapes, and the
    agent afterwards.  The argument [state] is returned as it came and is
    left out. *)
Definition process_message `{Runtime} `{Collaborators} (rs : rules)
  (user_message : text) (st : agent) : result text * agent :=
  let '(st1, relevant_knowledge) := before_response user_message st in
  match _generate_response rs st1 relevant_knowledge with
  | (Ok response, st2) =>
      (Ok response,
       {| user_info := user_info st2;
          selected_properties := selected_properties st2;
          last_mentioned_property := last_mentioned_property st2;
          current_phase := current_phase st2;
          conversation_history :=
            conversation_history st2 ++ [(Assistant, response)] |})
  | (Raise e, st2) => (Raise e, st2)
  end.

End RealEstateAgent.

Import RealEstateAgent.

(* ===================================================================== *)
(** ** [RealEstateListings] ([property_database.py])                        *)
(* ===================================================================== *)

Module RealEstateListings.

(** One row of the listings table, whose columns [location] and [type] are
    text columns.  A cell that is missing or that does not hold a value of
    the kind the column is read as is [None]: for [location] and [type] a
    cell without text, for [price] what [to_numeric] with [errors='coerce']
    turns into NaN, for [bedrooms] a cell that equals no integer.  Prices
    and bedroom counts are whole numbers. *)
Record row : Type := Row {
  r_type : option text;
  r_location : option text;
  r_price : option Z;
  r_bedrooms : option Z;
  r_features : option text
}.

(** The table [self.df]: its rows in file order.  A table that could not be
    loaded has no rows. *)
Abbreviation catalog := (list row).

(** A scalar filter value. *)
Inductive scalar : Type :=
  | SNone
  | SStr (s : text)
  | SInt (z : Z).

(** A filter value: a scalar or a list of scalars. *)
Inductive fvalue : Type :=
  | One (x : scalar)
  | Many (l : list scalar).

(** The dictionary [filters], by the four keys [search] looks at. *)
Record filters : Type := Filters {
  f_location : option text;
  f_property_type : option text;
  f_budget : option fvalue;
  f_bedrooms : option fvalue
}.

(** The element-wise text test of the table library:
    [Series.str.contains(pat, case=False, na=False)] on one text cell. *)
Class Frame : Type := {
  str_contains : text -> text -> bool
}.

(** [na=False]: a cell without text does not match. *)
Definition cell_contains `{Frame} (pat : text) (cell : option text) : bool :=
  match cell with
  | Some s => str_contains pat s
  | None => false
  end.

(** [str(x)]. *)
Definition scalar_str (x : scalar) : text :=
  match x with
  | SNone => U "None"
  | SStr s => s
  | SInt z => Z_to_text z
  end.

(** [int(x)]. *)
Definition scalar_int (x : scalar) : result Z :=
  match x with
  | SNone => Raise TypeError
  | SStr s => int_of s
  | SInt z => Ok z
  end.

(** The [try] block of the budget filter up to the assignment of [budget]. *)
Definition parse_budget (v : fvalue) : result Z :=
  budget_value ← match v with
                 | Many l => index0 l
                 | One x => Ok x
                 end;
  int_of (strip (remove_char comma (scalar_str budget_value))).

(** [int(filters['bedrooms'])]; a list is not accepted by [int]. *)
Definition parse_bedrooms (v : fvalue) : result Z :=
  match v with
  | One x => scalar_int x
  | Many _ => Raise TypeError
  end.

(** [price <= budget] on one cell; NaN compares false. *)
Definition price_le (budget : Z) (cell : option Z) : bool :=
  match cell with
  | Some p => (p <=? budget)%Z
  | None => false
  end.

(** [bedrooms == n] on one cell. *)
Definition bedrooms_eq (n : Z) (cell : option Z) : bool :=
  match cell with
  | Some b => (b =? n)%Z
  | None => false
  end.

Definition filter_location `{Frame} (fs : filters) (results : catalog) : catalog :=
  match f_location fs with
  | Some pat => List.filter (fun r => cell_contains pat (r_location r)) results
  | None => results
  end.

Definition filter_property_type `{Frame} (fs : filters) (results : catalog)
  : catalog :=
  match f_property_type fs with
  | Some pat => List.filter (fun r => cell_contains pat (r_type r)) results
  | None => results
  end.

Definition filter_budget (fs : filters) (results : catalog) : catalog :=
  match f_budget fs with
  | Some v =>
      try_except
        (budget ← parse_budget v;
         mret (List.filter (fun r => price_le budget (r_price r)) results))
        results
  | None => results
  end.

Definition filter_bedrooms (fs : filters) (results : catalog) : catalog :=
  match f_bedrooms fs with
  | Some v =>
      try_except
        (n ← parse_bedrooms v;
         mret (List.filter (fun r => bedrooms_eq n (r_bedrooms r)) results))
        results
  | None => results
  end.

(** [search]: the four filters one after the other, then [head(3)]. *)
Definition search `{Frame} (df : catalog) (fs : filters) : list row :=
  match df with
  | [] => []
  | _ =>
      let results := df in
      let results := filter_location fs results in
      let results := filter_property_type fs results in
      let results := filter_budget fs results in
      let results := filter_bedrooms fs results in
      take 3 results
  end.

(** Each step of [search] keeps the rows that pass one test, the test being
    void when the filter is missing or does not parse. *)
Definition location_test `{Frame} (fs : filters) (r : row) : bool :=
  match f_location fs with
  | Some pat => cell_contains pat (r_location r)
  | None => true
  end.

Definition type_test `{Frame} (fs : filters) (r : row) : bool :=
  match f_property_type fs with
  | Some pat => cell_contains pat (r_type r)
  | None => true
  end.

Definition budget_test (fs : filters) (r : row) : bool :=
  match f_budget fs with
  | Some v =>
      match parse_budget v with
      | Ok budget => price_le budget (r_price r)
      | Raise _ => true
      end
  | None => true
  end.

Definition bedrooms_test (fs : filters) (r : row) : bool :=
  match f_bedrooms fs with
  | Some v =>
      match parse_bedrooms v with
      | Ok n => bedrooms_eq n (r_bedrooms r)
      | Raise _ => true
      end
  | None => true
  end.

(** Following the words of the specification: a record satisfies the
    supplied filters when it passes each of them that is present, a budget
    or bedrooms filter whose value does not parse being disabled. *)
Definition satisfies `{Frame} (fs : filters) (r : row) : bool :=
  match f_location fs with
  | Some pat => cell_contains pat (r_location r)
  | None => true
  end
  && match f_property_type fs with
     | Some pat => cell_contains pat (r_type r)
     | None => true
     end
  && match f_budget fs with
     | Some v =>
         match parse_budget v with
         | Ok budget => price_le budget (r_price r)
         | Raise _ => true
         end
     | None => true
     end
  && match f_bedrooms fs with
     | Some v =>
         match parse_bedrooms v with
         | Ok n => bedrooms_eq n (r_bedrooms r)
         | Raise _ => true
         end
     | None => true
     end.

End RealEstateListings.

(* ===================================================================== *)
(** ** Concrete runtime, collaborators and data for running the model      *)
(* ===================================================================== *)

Module Sample.

(** Lower-casing of the letters A..Z; other code points are kept. *)
Definition ascii_lower (s : text) : text :=
  map (fun c => if ((65 <=? c) && (c <=? 90))%N then (c + 32)%N else c) s.

(** [repr] of a string that needs no escape, and of a list of such. *)
Definition quote (s : text) : text := U "'" ++ s ++ U "'".

Definition plain_repr_list (l : list text) : text :=
  U "[" ++ join (U ", ") (map quote l) ++ U "]".

Definition plain_repr_dict (p : property) : text :=
  U "{'type': " ++ quote (p_type p)
  ++ U ", 'location': " ++ quote (p_location p)
  ++ U ", 'price': "
  ++ match p_price p with
     | PriceInt z => Z_to_text z
     | PriceStr s => quote s
     end
  ++ match p_features p with
     | Some fs => U ", 'features': " ++ quote fs
     | None => []
     end
  ++ U "}".

Definition runtime : Runtime :=
  {| str_lower := ascii_lower;
     repr_list := plain_repr_list;
     repr_dict := plain_repr_dict |}.

(** Collaborators that find nothing and extract nothing. *)
Definition silent : Collaborators :=
  {| retrieve := fun _ _ _ => Knowledge [] [];
     analyze := fun _ _ _ _ _ => ReasoningResult ∅ None |}.

(** Literal, case-insensitive containment: what the text test of the table
    library computes for a pattern without special characters. *)
Definition literal_frame : RealEstateListings.Frame :=
  {| RealEstateListings.str_contains :=
       fun pat s => contains (ascii_lower pat) (ascii_lower s) |}.

Definition sample_rules : rules :=
  Rules [BudgetRule (U "budget_low") (U "low advice");
         BudgetRule (U "budget_mid") (U "mid advice");
         BudgetRule (U "budget_high") (U "high advice");
         BudgetRule (U "budget_low") (U "more low advice")]
        [PriorityRule (U "حديقة") (U "garden advice")].

Definition new_agent : agent :=
  {| user_info := ∅;
     selected_properties := [];
     last_mentioned_property := None;
     current_phase := DISCOVERY;
     conversation_history := [] |}.

Definition flat (n : Z) (where_ : text) (cost : Z) : RealEstateListings.row :=
  {| RealEstateListings.r_type := Some (U "شقة");
     RealEstateListings.r_location := Some where_;
     RealEstateListings.r_price := Some cost;
     RealEstateListings.r_bedrooms := Some n;
     RealEstateListings.r_features := None |}.

Definition five_flats : list RealEstateListings.row :=
  [flat 2 (U "المعادي") 900; flat 3 (U "المعادي") 950; flat 2 (U "المعادي") 700;
   flat 1 (U "المعادي") 400; flat 4 (U "المعادي") 990].

End Sample.

(* ===================================================================== *)
(** ** The hosts of the agent: [app.py] and [main.py]                      *)
(* ===================================================================== *)

Module Hosts.

#[global] Instance ConversationPhase_eq_dec : EqDecision ConversationPhase.
Proof. solve_decision. Defined.

(** The reasoning engine as [app.py] calls it: [run] receives the message,
    the phase the phase manager reports, the history and the slot store. *)
Class Engine : Type := {
  run : text -> option ConversationPhase -> list (role * text) -> slots ->
        reasoning_result
}.

(** The agent together with the phase its phase manager reports
    ([get_current_phase], which may be null). *)
Record hosted : Type := Hosted {
  the_agent : agent;
  manager_phase : option ConversationPhase
}.

(** The [process_message] that [app.py] puts in place of the method of the
    class.  It calls neither [_basic_info_extraction] nor the reference
    check, and hands an empty dictionary to [_generate_response] as the
    knowledge. *)
Definition patched_process_message `{Runtime} `{Engine} (rs : rules)
  (user_message : text) (h : hosted) : result text * hosted :=
  let st := the_agent h in
  let history := conversation_history st ++ [(User, user_message)] in
  let reasoning := run user_message (manager_phase h) history (user_info st) in
  let ui := if decide (extracted_info reasoning = ∅) then user_info st
            else extracted_info reasoning ∪ user_info st in
  let '(phase, reported) :=
    match next_phase reasoning with
    | Some p =>
        if decide (Some p = manager_phase h)
        then (current_phase st, manager_phase h)
        else (p, Some p)
    | None => (current_phase st, manager_phase h)
    end in
  let st1 := {| user_info := ui;
                selected_properties := selected_properties st;
                last_mentioned_property := last_mentioned_property st;
                current_phase := phase;
                conversation_history := history |} in
  match _generate_response rs st1 (Knowledge [] []) with
  | (Ok response, st2) =>
      (Ok response,
       Hosted {| user_info := user_info st2;
                 selected_properties := selected_properties st2;
                 last_mentioned_property := last_mentioned_property st2;
                 current_phase := current_phase st2;
                 conversation_history :=
                   conversation_history st2 ++ [(Assistant, response)] |}
              reported)
  | (Raise e, st2) => (Raise e, Hosted st2 reported)
  end.

(** [respond] of [main.py]: the chat history of the interface is a list of
    its own, written in place before and after the call of the agent. *)
Definition respond `{Runtime} `{Collaborators} (rs : rules) (message : text)
  (history : list (role * text)) (st : agent)
  : result unit * list (role * text) * agent :=
  match strip message with
  | [] => (Ok tt, history, st)
  | _ =>
      let history1 := history ++ [(User, message)] in
      match process_message rs message st with
      | (Ok response, st') => (Ok tt, history1 ++ [(Assistant, response)], st')
      | (Raise e, st') => (Raise e, history1, st')
      end
  end.

(** The reply of [chat] of [main.py] for a message that is a string. *)
Definition chat `{Runtime} `{Collaborators} (rs : rules) (message : text)
  (st : agent) : result text * agent :=
  match message with
  | [] => (Ok (U "عذراً، لم أفهم رسالتك. هل يمكنك إعادة صياغتها؟"), st)
  | _ => process_message rs message st
  end.

End Hosts.

(* ===================================================================== *)
(** ** Notions used to state the properties                                *)
(* ===================================================================== *)

Module Notions.

(** The guarded assignment [if k not in d: d[k] = v], when there is a value
    [v] to assign. *)
Definition fill (k : string) (o : option value) (d : slots) : slots :=
  match o with
  | Some v => if has_key k d then d else <[k := v]> d
  | None => d
  end.

(** The first gazetteer entry that occurs in the message. *)
Definition location_found (message : text) : option text :=
  List.find (fun l => contains l message) locations.

(** The budget text built from the first match of the budget pattern. *)
Definition budget_found (message : text) : option text :=
  match search budget_pattern message with
  | Some f =>
      match group 1 (captures f), group 2 (captures f) with
      | Some g1, Some unit =>
          Some (remove_char comma g1 ++ U " " ++ unit_label unit)
      | _, _ => None
      end
  | None => None
  end.

(** The first canonical type, in the order of the table, one of whose
    keywords occurs in the lower-cased message. *)
Definition type_found (message_lower : text) : option text :=
  fst <$> List.find
            (fun entry => existsb (fun kw => contains kw message_lower) (snd entry))
            property_types.

(** The knowledge and the reasoning result that one turn of
    [process_message] obtains from the collaborators. *)
Definition turn_knowledge `{Runtime} `{Collaborators} (message : text)
  (st : agent) : knowledge :=
  retrieve message (current_phase st)
           (_basic_info_extraction message (user_info st)).

Definition turn_reasoning `{Runtime} `{Collaborators} (message : text)
  (st : agent) : reasoning_result :=
  analyze message (current_phase st)
          (conversation_history st ++ [(User, message)])
          (turn_knowledge message st)
          (_basic_info_extraction message (user_info st)).



(** The fixed texts of the renderers. *)
Definition ready_message : text :=
  U "تمام! كده أنا عرفت اللي محتاجه، نراجع المعلومات؟".

Definition clarify_message : text :=
  U "ممكن توضح إيه اللي مش عاجبك؟ نقدر نعرض بديل.".

Definition rebuttal (referred : property) : text :=
  U "ليه مش عاجبك؟ ده فيه "
  ++ default (U "مميزات رائعة") (p_features referred)
  ++ U " وموقعه في " ++ p_location referred ++ U ".".

Definition summary_header : text := U "دي المعلومات اللي جمعتها:".

(** The advice section of the summary, empty when there is no advice. *)
Definition advice_section (advice : list text) : text :=
  match advice with
  | [] => []
  | _ => nl ++ nl ++ U "🧠 نصيحة:" ++ nl ++ join nl advice
  end.
Definition summary_question : text := U "هل الكلام ده مظبوط؟".

(** An engine that extracts nothing and keeps the phase. *)
Definition silent_engine : Hosts.Engine :=
  {| Hosts.run := fun _ _ _ _ => ReasoningResult ∅ None |}.

(** Collaborators that report a budget and move to the SUMMARY phase. *)
Definition eager : Collaborators :=
  {| retrieve := fun _ _ _ => Knowledge [] [];
     analyze := fun _ _ _ _ _ =>
       ReasoningResult (<["budget" := VStr (U "900 ألف جنيه")]> ∅) (Some SUMMARY) |}.

End Notions.

Import Hosts Notions.

(* ===================================================================== *)
(** * Properties                                                           *)
(* ===================================================================== *)

(** ** Text *)

Lemma cp_eqb_eq (a b : N) : cp_eqb a b = true <-> a = b.
Proof. unfold cp_eqb. apply N.eqb_eq. Qed.

Lemma text_eqb_eq (a b : text) : text_eqb a b = true <-> a = b.
Proof.
  revert b. induction a as [|x a IH]; intros [|y b]; simpl; try (split; congruence).
  rewrite andb_true_iff, cp_eqb_eq, IH. split.
  - intros [-> ->]. reflexivity.
  - intros [= -> ->]. split; reflexivity.
Qed.

Lemma text_mem_elem (x : text) (l : list text) : text_mem x l = true <-> x ∈ l.
Proof.
  unfold text_mem. rewrite existsb_exists. split.
  - intros (y & Hy & Heq). apply text_eqb_eq in Heq. subst. by apply list_elem_of_In.
  - intros Hx. exists x. split; [by apply list_elem_of_In | by apply text_eqb_eq].
Qed.

Lemma strip_prefix_spec (p s r : text) : strip_prefix p s = Some r <-> s = p ++ r.
Proof.
  revert s. induction p as [|a p IH]; intros s; simpl.
  - split; congruence.
  - destruct s as [|b s]; [split; congruence|].
    destruct (cp_eqb a b) eqn:E.
    + apply cp_eqb_eq in E. subst b. rewrite IH. split; congruence.
    + split; [congruence|]. intros [= -> _].
      assert (cp_eqb a a = true) by by apply cp_eqb_eq. congruence.
Qed.

Lemma strip_prefix_app (p r : text) : strip_prefix p (p ++ r) = Some r.
Proof. by apply strip_prefix_spec. Qed.




(** ** The backtracking matcher against the relation [matches] *)

Section Matcher.

Context {A : Type}.

Lemma star_sound (p : N -> bool) (s : text) (k : text -> option A) (x : A) :
  star p s k = Some x ->
  exists s1 s2, s = s1 ++ s2 /\ forallb p s1 = true /\ k s2 = Some x.
Proof.
  induction s as [|c s IH]; simpl.
  - intros Hk. exists [], []. auto.
  - destruct (p c) eqn:Hp.
    + destruct (star p s k) as [y|] eqn:Hs.
      * intros [= ->]. destruct (IH eq_refl) as (s1 & s2 & -> & Hall & Hk).
        exists (c :: s1), s2. simpl. rewrite Hp. auto.
      * intros Hk. exists [], (c :: s). auto.
    + intros Hk. exists [], (c :: s). auto.
Qed.

Lemma star_complete (p : N -> bool) (s1 s2 : text) (k : text -> option A) :
  forallb p s1 = true -> is_Some (k s2) -> is_Some (star p (s1 ++ s2) k).
Proof.
  induction s1 as [|c s1 IH]; simpl.
  - intros _ Hk. destruct s2 as [|c s2]; simpl; [exact Hk|].
    destruct (p c); [|exact Hk].
    destruct (star p s2 k); [eauto | exact Hk].
  - rewrite andb_true_iff. intros [-> Hall] Hk.
    destruct (IH Hall Hk) as [y ->]. eauto.
Qed.


End Matcher.

Lemma take_app_length_diff (s1 s2 : text) :
  take (length (s1 ++ s2) - length s2) (s1 ++ s2) = s1.
Proof.
  rewrite length_app. replace (length s1 + length s2 - length s2) with (length s1) by lia.
  by rewrite take_app_length.
Qed.

(** Whatever the matcher returns comes from a split of the text into a part
    that the pattern matches and a rest that the continuation accepts. *)
Lemma bt_sound {A : Type} (r : regex) :
  forall (s : text) (g : groups) (k : text -> groups -> option A) (x : A),
    bt r s g k = Some x ->
    exists s1 s2 g', s = s1 ++ s2 /\ matches r s1 g g' /\ k s2 g' = Some x.
Proof.
  induction r as [l|p|p|r1 IH1 r2 IH2|r1 IH1 r2 IH2|i r IH]; intros s g k x; simpl.
  - destruct (strip_prefix l s) as [s'|] eqn:E; [|discriminate].
    apply strip_prefix_spec in E. intros Hk.
    exists l, s', g. split; [exact E|]. split; [constructor | exact Hk].
  - destruct s as [|c s]; [discriminate|]. destruct (p c) eqn:Hp; [|discriminate].
    intros Hk. exists [c], s, g. split; [reflexivity|]. split; [by constructor | exact Hk].
  - intros H. apply star_sound in H as (s1 & s2 & -> & Hall & Hk).
    exists s1, s2, g. split; [reflexivity|]. split; [by constructor | exact Hk].
  - intros H. apply IH1 in H as (s1 & s' & g1 & -> & M1 & H).
    apply IH2 in H as (s2 & s3 & g2 & -> & M2 & Hk).
    exists (s1 ++ s2), s3, g2. rewrite <- app_assoc. split; [reflexivity|].
    split; [econstructor; eauto | exact Hk].
  - destruct (bt r1 s g k) as [y|] eqn:E1.
    + intros [= ->]. apply IH1 in E1 as (s1 & s2 & g' & -> & M & Hk).
      exists s1, s2, g'. split; [reflexivity|]. split; [by apply M_AltL | exact Hk].
    + intros H. apply IH2 in H as (s1 & s2 & g' & -> & M & Hk).
      exists s1, s2, g'. split; [reflexivity|]. split; [by apply M_AltR | exact Hk].
  - intros H. apply IH in H as (s1 & s2 & g' & -> & M & Hk).
    rewrite take_app_length_diff in Hk.
    exists s1, s2, ((i, s1) :: g'). split; [reflexivity|].
    split; [by constructor | exact Hk].
Qed.

(** Backtracking loses no match: when some split of the text is matched by
    the pattern and accepted by the continuation, the matcher succeeds. *)
Lemma bt_complete {A : Type} (r : regex) (s1 : text) (g g' : groups) :
  matches r s1 g g' ->
  forall (s2 : text) (k : text -> groups -> option A),
    is_Some (k s2 g') -> is_Some (bt r (s1 ++ s2) g k).
Proof.
  induction 1 as [l g|p c g Hp|p s g Hall|r1 r2 s1 s2 g g1 g2 M1 IH1 M2 IH2
                  |r1 r2 s g g' M IH|r1 r2 s g g' M IH|i r s g g' M IH];
    intros t k Hk; simpl.
  - by rewrite strip_prefix_app.
  - by rewrite Hp.
  - by apply (star_complete p s t (fun s' => k s' g)).
  - rewrite <- app_assoc. apply IH1. by apply IH2.
  - destruct (IH t k Hk) as [y ->]. eauto.
  - destruct (bt r1 (s ++ t) g k); [eauto|]. by apply IH.
  - apply IH. cbv beta. by rewrite take_app_length_diff.
Qed.

Lemma match_at_sound (r : regex) (s rest : text) (g : groups) :
  match_at r s = Some (rest, g) ->
  exists m, s = m ++ rest /\ matches r m [] g.
Proof.
  unfold match_at. intros H. apply bt_sound in H as (s1 & s2 & g' & -> & M & [= -> ->]).
  eauto.
Qed.

Lemma search_from_eq (r : regex) (pre s : text) :
  search_from r pre s =
  match match_at r s with
  | Some (rest, g) =>
      Some (Found (rev pre) (take (length s - length rest) s) rest g)
  | None =>
      match s with
      | [] => None
      | c :: s' => search_from r (c :: pre) s'
      end
  end.
Proof. destruct s; reflexivity. Qed.

Lemma search_from_sound (r : regex) (s pre : text) (f : found) :
  search_from r pre s = Some f ->
  rev pre ++ s = before f ++ matched f ++ after f
  /\ matches r (matched f) [] (captures f).
Proof.
  revert pre f. induction s as [|c s IH]; intros pre f; rewrite search_from_eq.
  - destruct (match_at r []) as [[rest g]|] eqn:E; [|discriminate].
    intros [= <-]. apply match_at_sound in E as (m & Hm & M).
    symmetry in Hm. apply app_eq_nil in Hm as [-> ->]. simpl. auto.
  - destruct (match_at r (c :: s)) as [[rest g]|] eqn:E.
    + apply match_at_sound in E as (m & Hm & M).
      rewrite Hm, take_app_length_diff. intros [= <-]. auto.
    + intros H. apply IH in H as [Heq M]. simpl in Heq.
      rewrite <- app_assoc in Heq. simpl in Heq. auto.
Qed.

(** A match reported by [search] splits the text around a part the pattern
    matches. *)
Lemma search_sound (r : regex) (s : text) (f : found) :
  search r s = Some f ->
  s = before f ++ matched f ++ after f /\ matches r (matched f) [] (captures f).
Proof. intros H. by apply search_from_sound in H. Qed.

Lemma search_from_complete (r : regex) (skipped m post : text) (g : groups) :
  matches r m [] g ->
  forall pre, is_Some (search_from r pre (skipped ++ m ++ post)).
Proof.
  intros M. induction skipped as [|c skipped IH]; intros pre.
  - simpl. assert (is_Some (match_at r (m ++ post))) as [[rest g'] E].
    { unfold match_at. eapply bt_complete; eauto. }
    destruct (m ++ post); simpl; rewrite E; eauto.
  - simpl. destruct (match_at r (c :: skipped ++ m ++ post)) as [[rest g']|]; [eauto|].
    apply IH.
Qed.

(** [search] finds a match whenever some part of the text is matched by the
    pattern. *)
Lemma search_complete (r : regex) (pre m post : text) (g : groups) :
  matches r m [] g -> is_Some (search r (pre ++ m ++ post)).
Proof. intros M. by eapply search_from_complete. Qed.

(** ** The Fact Extractor *)

Lemma has_key_false (k : string) (d : slots) : has_key k d = false <-> d !! k = None.
Proof. unfold has_key. destruct (d !! k); split; congruence. Qed.

Lemma has_key_true (k : string) (d : slots) : has_key k d = true <-> is_Some (d !! k).
Proof.
  unfold has_key. destruct (d !! k); split; try congruence; eauto.
  intros [? ?]. congruence.
Qed.

(** A guarded assignment [if k not in d: d[k] = w] keeps every binding. *)
Lemma guarded_insert_preserves (k j : string) (v w : value) (d : slots) :
  has_key k d = false -> d !! j = Some v -> <[k := w]> d !! j = Some v.
Proof.
  intros Hk Hj. apply has_key_false in Hk.
  rewrite lookup_insert_ne; [exact Hj | congruence].
Qed.

Lemma scan_locations_preserves (ls : list text) (message : text) (ui : slots)
  (j : string) (v : value) :
  ui !! j = Some v -> scan_locations ls message ui !! j = Some v.
Proof.
  intros Hj. induction ls as [|l ls IH]; simpl; [exact Hj|].
  destruct (contains l message); simpl; [|exact IH].
  destruct (has_key "location" ui) eqn:Hk; simpl; [exact IH|].
  by apply guarded_insert_preserves.
Qed.

Lemma scan_budget_preserves (message : text) (ui : slots) (j : string) (v : value) :
  ui !! j = Some v -> scan_budget message ui !! j = Some v.
Proof.
  intros Hj. unfold scan_budget.
  destruct (search budget_pattern message) as [f|]; [|exact Hj].
  destruct (has_key "budget" ui) eqn:Hk; simpl; [exact Hj|].
  destruct (group 1 (captures f)); [|exact Hj].
  destruct (group 2 (captures f)); [|exact Hj].
  by apply guarded_insert_preserves.
Qed.

Lemma scan_keywords_preserves (t : text) (kws : list text) (message_lower : text)
  (ui : slots) (j : string) (v : value) :
  ui !! j = Some v -> scan_keywords t kws message_lower ui !! j = Some v.
Proof.
  intros Hj. induction kws as [|kw kws IH]; simpl; [exact Hj|].
  destruct (contains kw message_lower); simpl; [|exact IH].
  destruct (has_key "property_type" ui) eqn:Hk; simpl; [exact IH|].
  by apply guarded_insert_preserves.
Qed.

Lemma scan_types_preserves (types : list (text * list text)) (message_lower : text)
  (ui : slots) (j : string) (v : value) :
  ui !! j = Some v -> scan_types types message_lower ui !! j = Some v.
Proof.
  revert ui. induction types as [|[t kws] types IH]; intros ui Hj; simpl; [exact Hj|].
  apply IH. by apply scan_keywords_preserves.
Qed.

(** One call of the extractor keeps every binding of the slot store. *)
Lemma extraction_preserves `{Runtime} (message : text) (ui : slots)
  (j : string) (v : value) :
  ui !! j = Some v -> _basic_info_extraction message ui !! j = Some v.
Proof.
  intros Hj. unfold _basic_info_extraction.
  by apply scan_types_preserves, scan_budget_preserves, scan_locations_preserves.
Qed.

(** The steps after the location scan do not write the [location] slot,
    and the steps after the budget scan do not write the [budget] slot. *)
Lemma scan_budget_other (message : text) (ui : slots) (j : string) :
  j <> "budget" -> scan_budget message ui !! j = ui !! j.
Proof.
  intros Hne. unfold scan_budget.
  destruct (search budget_pattern message) as [f|]; [|reflexivity].
  destruct (negb (has_key "budget" ui)); [|reflexivity].
  destruct (group 1 (captures f)); [|reflexivity].
  destruct (group 2 (captures f)); [|reflexivity].
  by rewrite lookup_insert_ne.
Qed.

Lemma scan_keywords_other (t : text) (kws : list text) (message_lower : text)
  (ui : slots) (j : string) :
  j <> "property_type" -> scan_keywords t kws message_lower ui !! j = ui !! j.
Proof.
  intros Hne. induction kws as [|kw kws IH]; simpl; [reflexivity|].
  destruct (contains kw message_lower && negb (has_key "property_type" ui)); [|exact IH].
  by rewrite lookup_insert_ne.
Qed.

Lemma scan_types_other (types : list (text * list text)) (message_lower : text)
  (ui : slots) (j : string) :
  j <> "property_type" -> scan_types types message_lower ui !! j = ui !! j.
Proof.
  intros Hne. revert ui. induction types as [|[t kws] types IH]; intros ui; simpl.
  - reflexivity.
  - rewrite IH. by apply scan_keywords_other.
Qed.

(** The location scan stores the first entry of the list that occurs in the
    message. *)
Lemma scan_locations_first (ls : list text) (message : text) (ui : slots)
  (i : nat) (loc : text) :
  ui !! "location" = None ->
  ls !! i = Some loc ->
  contains loc message = true ->
  (forall j loc', j < i -> ls !! j = Some loc' -> contains loc' message = false) ->
  scan_locations ls message ui !! "location" = Some (VStr loc).
Proof.
  intros Hnone. revert i. induction ls as [|l ls IH]; intros i Hi Hin Hmin.
  - discriminate.
  - simpl. apply has_key_false in Hnone as Hk. rewrite Hk. simpl.
    destruct i as [|i].
    + injection Hi as ->. rewrite Hin. simpl. by rewrite lookup_insert_eq.
    + rewrite (Hmin 0 l); [|lia|reflexivity]. simpl.
      apply (IH i); [exact Hi | exact Hin |].
      intros j loc' Hj Hl. apply (Hmin (S j)); [lia | exact Hl].
Qed.

(** C1. Once a slot among location, budget and property_type is set, no
    later call of the Fact Extractor changes its value, whatever the
    messages are. *)
Theorem first_writer_wins `{Runtime} (k : string) (v : value) (ui : slots)
  (messages : list text) :
  k ∈ ["location"; "budget"; "property_type"] ->
  ui !! k = Some v ->
  foldl (fun ui' m => _basic_info_extraction m ui') ui messages !! k = Some v.
Proof.
  intros _. revert ui. induction messages as [|m messages IH]; intros ui Hk; simpl.
  - exact Hk.
  - apply IH. by apply extraction_preserves.
Qed.

Lemma first_writer_wins_witness :
  let ui : slots := <["location" := VStr (U "المعادي")]> ∅ in
  ui !! "location" = Some (VStr (U "المعادي"))
  /\ foldl (fun ui' m => @_basic_info_extraction Sample.runtime m ui') ui
        [U "عايز شقة في القاهرة"; U "الجيزة"] !! "location"
     = Some (VStr (U "المعادي")).
Proof.
  split; [reflexivity|].
  apply (@first_writer_wins Sample.runtime "location").
  - apply list_elem_of_In. simpl. auto.
  - reflexivity.
Defined.

(** C2. When the location slot is unset and the message contains gazetteer
    names, the Fact Extractor stores the name that comes first in the
    gazetteer list, wherever the names stand in the message. *)
Theorem earliest_gazetteer_entry `{Runtime} (message : text) (ui : slots)
  (i : nat) (loc : text) :
  ui !! "location" = None ->
  locations !! i = Some loc ->
  contains loc message = true ->
  (forall j loc', j < i -> locations !! j = Some loc' ->
                  contains loc' message = false) ->
  _basic_info_extraction message ui !! "location" = Some (VStr loc).
Proof.
  intros Hnone Hi Hin Hmin. unfold _basic_info_extraction.
  rewrite scan_types_other by discriminate.
  rewrite scan_budget_other by discriminate.
  by apply (scan_locations_first locations message ui i loc).
Qed.

Lemma earliest_gazetteer_entry_witness :
  let message := U "في التجمع او المعادي" in
  locations !! 3 = Some (U "المعادي")
  /\ locations !! 6 = Some (U "التجمع")
  /\ contains (U "التجمع") message = true
  /\ @_basic_info_extraction Sample.runtime message ∅ !! "location"
     = Some (VStr (U "المعادي")).
Proof.
  repeat (split; [reflexivity|]).
  apply (@earliest_gazetteer_entry Sample.runtime _ ∅ 3).
  - reflexivity.
  - reflexivity.
  - vm_compute. reflexivity.
  - intros j loc' Hj. destruct j as [|[|[|j]]]; [| | |lia];
      intros [= <-]; vm_compute; reflexivity.
Defined.

(** What the alternation of literals matches. *)
Lemma alt_lits_matches (ls : list text) (s : text) (g g' : groups) :
  matches (alt_lits ls) s g g' <-> s ∈ ls /\ g' = g.
Proof.
  induction ls as [|l ls IH].
  - simpl. split.
    + inversion 1; subst. discriminate.
    + intros [Hin _]. by apply elem_of_nil in Hin.
  - destruct ls as [|l' ls].
    + simpl. split.
      * inversion 1; subst. split; [apply list_elem_of_here | reflexivity].
      * intros [Hin ->]. apply list_elem_of_singleton in Hin as ->. constructor.
    + change (alt_lits (l :: l' :: ls)) with (Alt (Lit l) (alt_lits (l' :: ls))).
      split.
      * inversion 1 as [| | | |? ? ? ? ? M|? ? ? ? ? M|]; subst.
        -- inversion M; subst. split; [apply list_elem_of_here | reflexivity].
        -- apply IH in M as [Hin ->]. split; [by apply list_elem_of_further | reflexivity].
      * intros [Hin ->]. apply elem_of_cons in Hin as [->|Hin].
        -- apply M_AltL. constructor.
        -- apply M_AltR. apply IH. auto.
Qed.

(** What [budget_pattern] matches: a digit, then digits and commas, then
    any run of whitespace (possibly none), then a unit token. *)
Lemma budget_pattern_matches (m : text) (g : groups) :
  matches budget_pattern m [] g <->
  exists d ds ws unit,
    m = (d :: ds) ++ ws ++ unit
    /\ is_digit d = true
    /\ forallb is_digit_or_comma ds = true
    /\ forallb is_space ws = true
    /\ unit ∈ unit_tokens
    /\ g = [(2, unit); (1, d :: ds)].
Proof.
  unfold budget_pattern. split.
  - intros M.
    inversion M as [| | |? ? amount rest ? g1 ? M1 M2| | |]; subst; clear M.
    inversion M1 as [| | | | | |? ? ? ? g0 M1']; subst; clear M1.
    inversion M1' as [| | |? ? s1 s2 ? g1 ? Md Mds| | |]; subst; clear M1'.
    inversion Md; subst; clear Md. inversion Mds; subst; clear Mds.
    inversion M2 as [| | |? ? ws u ? g1 ? Mws Mu| | |]; subst; clear M2.
    inversion Mws; subst; clear Mws.
    inversion Mu as [| | | | | |? ? ? ? g0 Mu']; subst; clear Mu.
    apply (proj1 (alt_lits_matches unit_tokens _ _ _)) in Mu' as [Hin ->].
    eexists _, _, _, _. repeat split; eauto.
  - intros (d & ds & ws & unit & -> & Hd & Hds & Hws & Hin & ->).
    apply M_Seq with (g1 := [(1, d :: ds)]).
    + apply M_Grp. apply (M_Seq _ _ [d] ds [] [] []); by constructor.
    + apply M_Seq with (g1 := [(1, d :: ds)]); [by constructor|].
      apply M_Grp. apply alt_lits_matches. auto.
Qed.

(** The step after the budget scan does not write the [budget] slot. *)
Lemma extraction_budget `{Runtime} (message : text) (ui : slots) :
  _basic_info_extraction message ui !! "budget"
  = scan_budget message (scan_locations locations message ui) !! "budget".
Proof. unfold _basic_info_extraction. by rewrite scan_types_other. Qed.

Lemma scan_locations_other (ls : list text) (message : text) (ui : slots) (j : string) :
  j <> "location" -> scan_locations ls message ui !! j = ui !! j.
Proof.
  intros Hne. induction ls as [|l ls IH]; simpl; [reflexivity|].
  destruct (contains l message && negb (has_key "location" ui)); [|exact IH].
  by rewrite lookup_insert_ne.
Qed.

(** The budget stored for a match on an unset slot. *)
Lemma extraction_budget_match `{Runtime} (message : text) (ui : slots) (f : found)
  (amount unit : text) :
  ui !! "budget" = None ->
  search budget_pattern message = Some f ->
  group 1 (captures f) = Some amount ->
  group 2 (captures f) = Some unit ->
  _basic_info_extraction message ui !! "budget"
  = Some (VStr (remove_char comma amount ++ U " " ++ unit_label unit)).
Proof.
  intros Hnone Hs H1 H2. rewrite extraction_budget. unfold scan_budget.
  rewrite Hs, H1, H2.
  assert (has_key "budget" (scan_locations locations message ui) = false) as ->.
  { apply has_key_false. by rewrite scan_locations_other. }
  simpl. by rewrite lookup_insert_eq.
Qed.

(** C3. With the budget slot unset, a message whose budget match has the
    amount 2,500 and the unit k stores the digits 2500 followed by the
    thousand label; an amount 3 with the million word stores 3 followed by
    the million label. *)
Theorem budget_normalised `{Runtime} (message : text) (ui : slots) (f : found) :
  ui !! "budget" = None ->
  search budget_pattern message = Some f ->
  (group 1 (captures f) = Some (U "2,500") ->
   group 2 (captures f) = Some (U "k") ->
   _basic_info_extraction message ui !! "budget"
   = Some (VStr (U "2500" ++ U " " ++ thousand_label)))
  /\ (group 1 (captures f) = Some (U "3") ->
      group 2 (captures f) = Some (U "مليون") ->
      _basic_info_extraction message ui !! "budget"
      = Some (VStr (U "3" ++ U " " ++ million_label))).
Proof.
  intros Hnone Hs. split; intros H1 H2;
    by rewrite (extraction_budget_match message ui f _ _ Hnone Hs H1 H2).
Qed.

Lemma budget_normalised_witness :
  (search budget_pattern (U "2,500 k")
   = Some (Found [] (U "2,500 k") [] [(2, U "k"); (1, U "2,500")])
   /\ @_basic_info_extraction Sample.runtime (U "2,500 k") ∅ !! "budget"
      = Some (VStr (U "2500 ألف جنيه")))
  /\ (search budget_pattern (U "3 مليون")
      = Some (Found [] (U "3 مليون") [] [(2, U "مليون"); (1, U "3")])
      /\ @_basic_info_extraction Sample.runtime (U "3 مليون") ∅ !! "budget"
         = Some (VStr (U "3 مليون جنيه"))).
Proof.
  split; (split; [vm_compute; reflexivity|]).
  - apply (@budget_normalised Sample.runtime (U "2,500 k") ∅
             (Found [] (U "2,500 k") [] [(2, U "k"); (1, U "2,500")]));
      vm_compute; reflexivity.
  - apply (@budget_normalised Sample.runtime (U "3 مليون") ∅
             (Found [] (U "3 مليون") [] [(2, U "مليون"); (1, U "3")]));
      vm_compute; reflexivity.
Defined.

(** Every match of [budget_pattern] found by [search], spelled out. *)
Lemma budget_search_sound (message : text) (f : found) :
  search budget_pattern message = Some f ->
  exists d ds ws unit,
    message = before f ++ ((d :: ds) ++ ws ++ unit) ++ after f
    /\ is_digit d = true
    /\ forallb is_digit_or_comma ds = true
    /\ forallb is_space ws = true
    /\ unit ∈ unit_tokens
    /\ group 1 (captures f) = Some (d :: ds)
    /\ group 2 (captures f) = Some unit.
Proof.
  intros Hs. apply search_sound in Hs as [Heq M].
  apply budget_pattern_matches in M as (d & ds & ws & unit & Hm & Hd & Hds & Hws & Hin & Hg).
  exists d, ds, ws, unit. rewrite <- Hm, Hg. repeat split; auto.
Qed.

(** Every text that holds a digit string, any whitespace and a unit token
    has a match. *)
Lemma budget_search_complete (pre d_ds ws unit post : text) (d : N) (ds : text) :
  d_ds = d :: ds ->
  is_digit d = true ->
  forallb is_digit_or_comma ds = true ->
  forallb is_space ws = true ->
  unit ∈ unit_tokens ->
  is_Some (search budget_pattern (pre ++ (d_ds ++ ws ++ unit) ++ post)).
Proof.
  intros -> Hd Hds Hws Hin.
  apply (search_complete budget_pattern pre _ post [(2, unit); (1, d :: ds)]).
  apply budget_pattern_matches. exists d, ds, ws, unit. repeat split; auto.
Qed.

(** C4 as written fails. The claim that whitespace is required between
    the digits and the unit does not hold: in 2500k no whitespace stands between them, and the budget slot is
    set. *)
Lemma adjacent_unit_sets_budget :
  forallb (fun c => negb (is_space c)) (U "2500k") = true
  /\ @_basic_info_extraction Sample.runtime (U "2500k") ∅ !! "budget"
     = Some (VStr (U "2500 ألف جنيه")).
Proof. split; vm_compute; reflexivity. Qed.

(** C4, amended. With the budget slot unset: the budget pattern matches only
    where a digit string is followed by zero or more whitespace characters
    and then a unit token, and the slot is then set from that digit string
    and that unit; every message that holds such a text sets the slot; and
    the message 2500k, whose digits touch the unit, sets the slot to 2500
    followed by the thousand label. *)
Theorem budget_pattern_optional_whitespace `{Runtime} (message : text) (ui : slots) :
  ui !! "budget" = None ->
  (forall f, search budget_pattern message = Some f ->
     exists d ds ws unit,
       message = before f ++ ((d :: ds) ++ ws ++ unit) ++ after f
       /\ is_digit d = true
       /\ forallb is_digit_or_comma ds = true
       /\ forallb is_space ws = true
       /\ unit ∈ unit_tokens
       /\ _basic_info_extraction message ui !! "budget"
          = Some (VStr (remove_char comma (d :: ds) ++ U " " ++ unit_label unit)))
  /\ (forall pre d ds ws unit post,
        message = pre ++ ((d :: ds) ++ ws ++ unit) ++ post ->
        is_digit d = true ->
        forallb is_digit_or_comma ds = true ->
        forallb is_space ws = true ->
        unit ∈ unit_tokens ->
        is_Some (_basic_info_extraction message ui !! "budget"))
  /\ (message = U "2500k" ->
      _basic_info_extraction message ui !! "budget"
      = Some (VStr (U "2500" ++ U " " ++ thousand_label))).
Proof.
  intros Hnone. split; [|split].
  - intros f Hs.
    destruct (budget_search_sound message f Hs)
      as (d & ds & ws & unit & Hm & Hd & Hds & Hws & Hin & H1 & H2).
    exists d, ds, ws, unit. repeat split; auto.
    by apply (extraction_budget_match message ui f).
  - intros pre d ds ws unit post -> Hd Hds Hws Hin.
    destruct (budget_search_complete pre (d :: ds) ws unit post d ds
                eq_refl Hd Hds Hws Hin) as [f Hs].
    destruct (budget_search_sound _ f Hs)
      as (d' & ds' & ws' & unit' & _ & _ & _ & _ & _ & H1 & H2).
    rewrite (extraction_budget_match _ ui f _ _ Hnone Hs H1 H2). eauto.
  - intros ->.
    assert (search budget_pattern (U "2500k")
            = Some (Found [] (U "2500k") [] [(2, U "k"); (1, U "2500")])) as Hs
      by (vm_compute; reflexivity).
    by rewrite (extraction_budget_match _ ui _ (U "2500") (U "k") Hnone Hs).
Qed.

Lemma budget_pattern_optional_whitespace_witness :
  (∅ : slots) !! "budget" = None
  /\ @_basic_info_extraction Sample.runtime (U "2500k") ∅ !! "budget"
     = Some (VStr (U "2500 ألف جنيه"))
  /\ is_Some (@_basic_info_extraction Sample.runtime (U "حوالي 1,200   الف") ∅
              !! "budget").
Proof.
  split; [reflexivity|]. split.
  - apply (@budget_pattern_optional_whitespace Sample.runtime (U "2500k") ∅);
      reflexivity.
  - apply (proj1 (proj2
      (@budget_pattern_optional_whitespace Sample.runtime
         (U "حوالي 1,200   الف") ∅ (lookup_empty _)))
      (U "حوالي ") 49%N (U ",200") (U "   ") (U "الف") []);
      try (vm_compute; reflexivity).
    apply list_elem_of_In. vm_compute. auto.
Defined.

(** ** The Rule Engine *)















Lemma apply_rule_logic_split (rs : rules) (ui : slots) (pd : option property)
  (advice features : list text) :
  budget_logic rs ui = Ok advice ->
  rule_features ui pd = Ok features ->
  _apply_rule_logic rs ui pd = Ok (advice ++ feature_logic rs features).
Proof. intros Hb Hf. unfold _apply_rule_logic. by rewrite Hb, Hf. Qed.





(** ** The Catalog Matcher *)

Section Listings.

Import RealEstateListings.
Context `{Frame}.

Lemma filter_twice {A : Type} (p q : A -> bool) (l : list A) :
  List.filter q (List.filter p l) = List.filter (fun x => p x && q x) l.
Proof.
  induction l as [|x l IH]; simpl; [reflexivity|].
  destruct (p x); simpl; [|exact IH]. destruct (q x); by rewrite IH.
Qed.


Lemma filter_true {A : Type} (l : list A) : List.filter (fun _ => true) l = l.
Proof. induction l as [|x l IH]; simpl; [reflexivity | by rewrite IH]. Qed.

Lemma filter_location_test (fs : filters) (results : catalog) :
  filter_location fs results = List.filter (location_test fs) results.
Proof.
  unfold filter_location, location_test.
  destruct (f_location fs); [reflexivity | by rewrite filter_true].
Qed.

Lemma filter_property_type_test (fs : filters) (results : catalog) :
  filter_property_type fs results = List.filter (type_test fs) results.
Proof.
  unfold filter_property_type, type_test.
  destruct (f_property_type fs); [reflexivity | by rewrite filter_true].
Qed.

Lemma filter_budget_test (fs : filters) (results : catalog) :
  filter_budget fs results = List.filter (budget_test fs) results.
Proof.
  unfold filter_budget, budget_test.
  destruct (f_budget fs) as [v|]; [|by rewrite filter_true].
  destruct (parse_budget v); simpl; [reflexivity | by rewrite filter_true].
Qed.

Lemma filter_bedrooms_test (fs : filters) (results : catalog) :
  filter_bedrooms fs results = List.filter (bedrooms_test fs) results.
Proof.
  unfold filter_bedrooms, bedrooms_test.
  destruct (f_bedrooms fs) as [v|]; [|by rewrite filter_true].
  destruct (parse_bedrooms v); simpl; [reflexivity | by rewrite filter_true].
Qed.

Lemma satisfies_tests (fs : filters) (r : row) :
  satisfies fs r
  = location_test fs r && type_test fs r && budget_test fs r && bedrooms_test fs r.
Proof. reflexivity. Qed.

(** The successive selections of [search] select the rows that satisfy all
    the filters, in the order of the table. *)
Lemma search_filter (df : catalog) (fs : filters) :
  search df fs = take 3 (List.filter (satisfies fs) df).
Proof.
  unfold search. destruct df as [|r df]; [reflexivity|].
  rewrite filter_location_test, filter_property_type_test,
    filter_budget_test, filter_bedrooms_test, !filter_twice.
  f_equal. apply List.filter_ext. intros x.
  by rewrite satisfies_tests, !andb_assoc.
Qed.


(** C7. On an empty catalog [search] returns the empty list, whatever the
    filters are. *)
Theorem search_empty_catalog (fs : filters) : search [] fs = [].
Proof. reflexivity. Qed.

End Listings.


(** ** The dispatcher and [process_message] *)

(** C8. In the SUGGESTION phase, when the knowledge holds no matching
    property, the dispatcher returns the fixed no-match message and the
    agent is left as it was: neither the selected properties nor the last
    mentioned property change. *)
Theorem no_match_no_mutation `{Runtime} (rs : rules) (st : agent) (kn : knowledge) :
  current_phase st = SUGGESTION ->
  relevant_properties kn = [] ->
  _suggest_properties rs st (user_info st) kn = (Ok no_match_message, st)
  /\ _generate_response rs st kn = (Ok no_match_message, st)
  /\ selected_properties (snd (_generate_response rs st kn)) = selected_properties st
  /\ last_mentioned_property (snd (_generate_response rs st kn))
     = last_mentioned_property st.
Proof.
  intros Hphase Hnone.
  assert (_suggest_properties rs st (user_info st) kn = (Ok no_match_message, st)) as Hs
    by (unfold _suggest_properties; by rewrite Hnone).
  assert (_generate_response rs st kn = (Ok no_match_message, st)) as Hg
    by (unfold _generate_response; by rewrite Hphase).
  rewrite Hg. auto.
Qed.

Lemma no_match_no_mutation_witness :
  let shown := Property (U "شقة") (U "المعادي") (PriceInt 900) None in
  let st := {| user_info := ∅;
               selected_properties := [shown];
               last_mentioned_property := Some shown;
               current_phase := SUGGESTION;
               conversation_history := [] |} in
  @_generate_response Sample.runtime Sample.sample_rules st (Knowledge [] [])
  = (Ok no_match_message, st).
Proof.
  intros shown st.
  apply (@no_match_no_mutation Sample.runtime Sample.sample_rules st (Knowledge [] []));
    reflexivity.
Defined.

(** The dispatcher never writes the slot store. *)
Lemma generate_response_user_info `{Runtime} (rs : rules) (st : agent) (kn : knowledge) :
  user_info (snd (_generate_response rs st kn)) = user_info st.
Proof.
  unfold _generate_response. destruct (current_phase st); try reflexivity.
  unfold _suggest_properties. by destruct (relevant_properties kn).
Qed.

Lemma process_message_user_info `{Runtime} `{Collaborators} (rs : rules)
  (message : text) (st : agent) :
  user_info (snd (process_message rs message st))
  = user_info (fst (before_response message st)).
Proof.
  unfold process_message.
  destruct (before_response message st) as [st1 kn] eqn:Hb. simpl.
  pose proof (generate_response_user_info rs st1 kn) as Hu.
  destruct (_generate_response rs st1 kn) as [[response|e] st2]; simpl in *; exact Hu.
Qed.

(** What the patterns of the resolver match: a vague word, then characters
    other than a line feed, then a negative phrase. *)
Lemma reference_pattern_matches (word m : text) (g : groups) :
  matches (reference_pattern word) m [] g <->
  exists mid phrase,
    m = word ++ mid ++ phrase
    /\ forallb is_dot mid = true
    /\ phrase ∈ negative_phrases
    /\ g = [(1, phrase)].
Proof.
  unfold reference_pattern. split.
  - intros M.
    inversion M as [| | |? ? w rest ? g1 ? Mw Mrest| | |]; subst; clear M.
    inversion Mw; subst; clear Mw.
    inversion Mrest as [| | |? ? mid p ? g1 ? Mmid Mp| | |]; subst; clear Mrest.
    inversion Mmid; subst; clear Mmid.
    inversion Mp as [| | | | | |? ? ? ? g0 Mp']; subst; clear Mp.
    apply (proj1 (alt_lits_matches negative_phrases _ _ _)) in Mp' as [Hin ->].
    eexists _, _. repeat split; eauto.
  - intros (mid & phrase & -> & Hmid & Hin & ->).
    apply M_Seq with (g1 := []); [constructor|].
    apply M_Seq with (g1 := []); [by constructor|].
    apply M_Grp. apply alt_lits_matches. auto.
Qed.

(** The resolver answers true exactly when the lower-cased message holds a
    vague word followed, on the same line, by a negative phrase. *)
Lemma is_reference_spec `{Runtime} (message : text) :
  _is_reference_to_previous_property message = true <->
  exists word pre mid phrase post,
    word ∈ vague_words
    /\ phrase ∈ negative_phrases
    /\ forallb is_dot mid = true
    /\ str_lower message = pre ++ (word ++ mid ++ phrase) ++ post.
Proof.
  unfold _is_reference_to_previous_property, reference_patterns.
  rewrite existsb_exists. split.
  - intros (p & Hp & Hs). apply in_map_iff in Hp as (word & <- & Hw).
    destruct (search (reference_pattern word) (str_lower message)) as [f|] eqn:E;
      [|discriminate].
    apply search_sound in E as [Heq M].
    apply reference_pattern_matches in M as (mid & phrase & Hm & Hmid & Hin & _).
    exists word, (before f), mid, phrase, (after f).
    rewrite <- Hm. repeat split; auto. by apply list_elem_of_In.
  - intros (word & pre & mid & phrase & post & Hw & Hin & Hmid & Heq).
    exists (reference_pattern word). split.
    + apply in_map. by apply list_elem_of_In.
    + rewrite Heq.
      destruct (search_complete (reference_pattern word) pre
                  (word ++ mid ++ phrase) post [(1, phrase)]) as [f ->];
        [|reflexivity].
      apply reference_pattern_matches. exists mid, phrase. auto.
Qed.

(** C9. Whenever the Reference Resolver reports a match, [process_message]
    leaves in [refers_to] the last mentioned property when there is one and
    the unresolved sentinel otherwise; the slot is neither absent nor null. *)
Theorem reference_never_absent `{Runtime} `{Collaborators} (rs : rules)
  (message : text) (st : agent) :
  _is_reference_to_previous_property message = true ->
  let ui' := user_info (snd (process_message rs message st)) in
  ui' !! "refers_to"
  = Some (match last_mentioned_property st with
          | Some p => VDict p
          | None => VStr unresolved
          end)
  /\ ui' !! "refers_to" <> None
  /\ ui' !! "refers_to" <> Some VNone.
Proof.
  intros Href ui'. subst ui'. rewrite process_message_user_info.
  unfold before_response. cbn [fst user_info]. unfold resolve_reference.
  rewrite Href, lookup_insert_eq.
  split; [reflexivity|]. split; [discriminate|].
  destruct (last_mentioned_property st); discriminate.
Qed.

Lemma reference_never_absent_witness :
  @_is_reference_to_previous_property Sample.runtime (U "هي مش عاجباني") = true
  /\ user_info (snd (@process_message Sample.runtime Sample.silent
                       Sample.sample_rules (U "هي مش عاجباني") Sample.new_agent))
     !! "refers_to" = Some (VStr unresolved).
Proof.
  split; [vm_compute; reflexivity|].
  apply (@reference_never_absent Sample.runtime Sample.silent Sample.sample_rules
           (U "هي مش عاجباني") Sample.new_agent).
  vm_compute. reflexivity.
Defined.

(** ** DISCOVERY against SUMMARY on a slot bound to a falsy value *)













(** The end-to-end form of C8: when the turn is rendered in the SUGGESTION
    phase and the retriever found no property, [process_message] returns the
    no-match message and keeps the selected and the last mentioned
    properties. *)
Lemma process_message_no_match `{Runtime} `{Collaborators} (rs : rules)
  (message : text) (st : agent) :
  current_phase (fst (before_response message st)) = SUGGESTION ->
  relevant_properties (snd (before_response message st)) = [] ->
  fst (process_message rs message st) = Ok no_match_message
  /\ selected_properties (snd (process_message rs message st))
     = selected_properties st
  /\ last_mentioned_property (snd (process_message rs message st))
     = last_mentioned_property st.
Proof.
  unfold process_message.
  destruct (before_response message st) as [st1 kn] eqn:Hb. simpl.
  intros Hphase Hnone.
  assert (selected_properties st1 = selected_properties st
          /\ last_mentioned_property st1 = last_mentioned_property st) as [Hs Hl].
  { unfold before_response in Hb. injection Hb as <- _. auto. }
  unfold _generate_response, _suggest_properties. rewrite Hphase, Hnone. auto.
Qed.

(** ** Runs of the model on concrete inputs *)

Example search_budget_example :
  search budget_pattern (U "عايز 2,500 k")
  = Some (Found (U "عايز ") (U "2,500 k") [] [(2, U "k"); (1, U "2,500")]).
Proof. vm_compute. reflexivity. Qed.

Example search_budget_last_digits :
  option_map matched (search budget_pattern (U "1 2k")) = Some (U "2k").
Proof. vm_compute. reflexivity. Qed.

Example findall_digits_example :
  findall digits_pattern (U "a12 b345c6") = [U "12"; U "345"; U "6"].
Proof. vm_compute. reflexivity. Qed.

Example py_int_examples :
  py_int (U " 2_500 ") = Some 2500%Z
  /\ py_int (U "-٣٠٠") = Some (-300)%Z
  /\ py_int (U "1__0") = None
  /\ py_int (U "") = None.
Proof. vm_compute. auto. Qed.

Example extraction_example :
  let ui := @_basic_info_extraction Sample.runtime
              (U "عايز Villa في المعادي او القاهرة بـ 3 مليون") ∅ in
  ui !! "location" = Some (VStr (U "القاهرة"))
  /\ ui !! "budget" = Some (VStr (U "3 مليون جنيه"))
  /\ ui !! "property_type" = Some (VStr (U "فيلا")).
Proof. vm_compute. auto. Qed.

Example resolver_examples :
  @_is_reference_to_previous_property Sample.runtime (U "هي مش عاجباني") = true
  /\ @_is_reference_to_previous_property Sample.runtime (U "مش هي") = false
  /\ @_is_reference_to_previous_property Sample.runtime (U "هي" ++ nl ++ U "مش") = false.
Proof. vm_compute. auto. Qed.

Example discovery_example :
  _discovery_response (<["location" := VStr (U "القاهرة")]> ∅) (Knowledge [] [])
  = U "ممكن تقولي الميزانية, نوع العقار؟ علشان أقدر أساعدك بشكل أفضل.".
Proof. vm_compute. reflexivity. Qed.

Example summary_example :
  @_summary_response Sample.runtime (Rules [] [])
    (<["location" := VStr (U "القاهرة")]>
       (<["budget" := VStr (U "300 ألف جنيه")]>
          (<["property_type" := VStr (U "شقة")]> ∅)))
  = Ok (U "دي المعلومات اللي جمعتها:" ++ nl
        ++ U "📍 الموقع: القاهرة" ++ nl
        ++ U "💰 الميزانية: 300 ألف جنيه" ++ nl
        ++ U "🏠 النوع: شقة" ++ nl
        ++ U "هل الكلام ده مظبوط؟").
Proof. vm_compute. reflexivity. Qed.

Example suggestion_example :
  let flat := Property (U "شقة") (U "المعادي") (PriceInt 900000)
                (Some (U "حديقة خاصة، جراج")) in
  let villa := Property (U "فيلا") (U "التجمع") (PriceStr (U "5,000,000")) None in
  let st := {| user_info := <["budget" := VStr (U "3 مليون جنيه")]> ∅;
               selected_properties := [];
               last_mentioned_property := None;
               current_phase := SUGGESTION;
               conversation_history := [] |} in
  let out := @_generate_response Sample.runtime Sample.sample_rules st
               (Knowledge [] [flat; villa]) in
  fst out
  = Ok (U "🏡 العقارات دي ممكن تعجبك:" ++ nl
        ++ U "- شقة في المعادي بـ 900000 جنيه" ++ nl
        ++ U "- فيلا في التجمع بـ 5,000,000 جنيه" ++ nl ++ nl
        ++ U "🧠 ملاحظات:" ++ nl
        ++ U "high advice" ++ nl ++ U "garden advice" ++ nl
        ++ U "هل في واحد منهم شد انتباهك؟")
  /\ last_mentioned_property (snd out) = Some flat
  /\ selected_properties (snd out) = [flat; villa].
Proof. vm_compute. auto. Qed.

Example persuasion_example :
  let flat := Property (U "شقة") (U "المعادي") (PriceInt 900000) None in
  persuasion_response (<["refers_to" := VDict flat]> ∅)
  = U "ليه مش عاجبك؟ ده فيه مميزات رائعة وموقعه في المعادي."
  /\ persuasion_response (<["refers_to" := VStr unresolved]> ∅)
     = U "ممكن توضح إيه اللي مش عاجبك؟ نقدر نعرض بديل.".
Proof. vm_compute. auto. Qed.

Example search_unparsed_budget :
  let fs := RealEstateListings.Filters None None
              (Some (RealEstateListings.One (RealEstateListings.SStr (U "cheap"))))
              (Some (RealEstateListings.One (RealEstateListings.SInt 2))) in
  @RealEstateListings.search Sample.literal_frame Sample.five_flats fs
  = [Sample.flat 2 (U "المعادي") 900; Sample.flat 2 (U "المعادي") 700].
Proof. vm_compute. reflexivity. Qed.

(* ===================================================================== *)
(** * Further properties of the code                                       *)
(* ===================================================================== *)

(** ** The Fact Extractor as three guarded assignments *)

Lemma fill_lookup (k : string) (o : option value) (d : slots) :
  fill k o d !! k = match d !! k with Some v => Some v | None => o end.
Proof.
  unfold fill, has_key. destruct o as [v|]; destruct (d !! k) eqn:E; try done.
  by rewrite lookup_insert_eq.
Qed.

Lemma fill_lookup_ne (k j : string) (o : option value) (d : slots) :
  j <> k -> fill k o d !! j = d !! j.
Proof.
  intros Hne. unfold fill. destruct o as [v|]; [|reflexivity].
  destruct (has_key k d); [reflexivity|]. by rewrite lookup_insert_ne.
Qed.

Lemma fill_set (k : string) (o : option value) (d : slots) :
  has_key k d = true -> fill k o d = d.
Proof. intros Hk. unfold fill. destruct o; [by rewrite Hk | reflexivity]. Qed.

Lemma has_key_fill (k j : string) (o : option value) (d : slots) :
  j <> k -> has_key j (fill k o d) = has_key j d.
Proof. intros Hne. unfold has_key. by rewrite fill_lookup_ne. Qed.

Lemma fill_twice (k : string) (o : option value) (d : slots) :
  fill k o (fill k o d) = fill k o d.
Proof.
  destruct o as [v|]; [|reflexivity]. simpl.
  destruct (has_key k d) eqn:Hk.
  - by rewrite Hk.
  - assert (has_key k (<[k:=v]> d) = true) as ->; [|reflexivity].
    apply has_key_true. rewrite lookup_insert_eq. eauto.
Qed.

Lemma fill_commute (k j : string) (o p : option value) (d : slots) :
  k <> j -> fill k o (fill j p d) = fill j p (fill k o d).
Proof.
  intros Hne. apply map_eq. intros i.
  destruct (decide (i = k)) as [->|Hik].
  - rewrite fill_lookup, (fill_lookup_ne j k) by done.
    by rewrite (fill_lookup_ne j k), fill_lookup by done.
  - rewrite (fill_lookup_ne k i) by done.
    destruct (decide (i = j)) as [->|Hij].
    + by rewrite !fill_lookup, (fill_lookup_ne k j) by done.
    + by rewrite !(fill_lookup_ne j i), (fill_lookup_ne k i) by done.
Qed.

Lemma scan_locations_set (ls : list text) (message : text) (ui : slots) :
  has_key "location" ui = true -> scan_locations ls message ui = ui.
Proof.
  intros Hk. induction ls as [|l ls IH]; simpl; [reflexivity|].
  rewrite Hk. simpl. by rewrite andb_false_r.
Qed.

Lemma scan_locations_fill (ls : list text) (message : text) (ui : slots) :
  scan_locations ls message ui
  = fill "location" (VStr <$> List.find (fun l => contains l message) ls) ui.
Proof.
  induction ls as [|l ls IH]; simpl; [reflexivity|].
  destruct (contains l message); simpl; [|exact IH].
  destruct (has_key "location" ui) eqn:Hk; simpl; [|reflexivity].
  by apply scan_locations_set.
Qed.

Lemma scan_budget_fill (message : text) (ui : slots) :
  scan_budget message ui = fill "budget" (VStr <$> budget_found message) ui.
Proof.
  unfold scan_budget, budget_found.
  destruct (search budget_pattern message) as [f|]; [|reflexivity].
  destruct (group 1 (captures f)) as [g1|], (group 2 (captures f)) as [unit|];
    simpl; destruct (has_key "budget" ui); reflexivity.
Qed.

Lemma scan_keywords_set (t : text) (kws : list text) (ml : text) (ui : slots) :
  has_key "property_type" ui = true -> scan_keywords t kws ml ui = ui.
Proof.
  intros Hk. induction kws as [|kw kws IH]; simpl; [reflexivity|].
  rewrite Hk. simpl. by rewrite andb_false_r.
Qed.

Lemma scan_keywords_fill (t : text) (kws : list text) (ml : text) (ui : slots) :
  scan_keywords t kws ml ui
  = fill "property_type"
         (if existsb (fun kw => contains kw ml) kws then Some (VStr t) else None) ui.
Proof.
  induction kws as [|kw kws IH]; simpl; [reflexivity|].
  destruct (contains kw ml); simpl; [|exact IH].
  destruct (has_key "property_type" ui) eqn:Hk; simpl; [|reflexivity].
  by apply scan_keywords_set.
Qed.

Lemma scan_types_set (types : list (text * list text)) (ml : text) (ui : slots) :
  has_key "property_type" ui = true -> scan_types types ml ui = ui.
Proof.
  intros Hk. induction types as [|[t kws] types IH]; simpl; [reflexivity|].
  by rewrite scan_keywords_set.
Qed.

Lemma scan_types_fill (types : list (text * list text)) (ml : text) (ui : slots) :
  scan_types types ml ui
  = fill "property_type"
         (VStr <$> (fst <$> List.find
                              (fun entry => existsb (fun kw => contains kw ml) (snd entry))
                              types))
         ui.
Proof.
  revert ui. induction types as [|[t kws] types IH]; intros ui; simpl; [reflexivity|].
  rewrite scan_keywords_fill.
  destruct (existsb (fun kw => contains kw ml) kws); simpl.
  - destruct (has_key "property_type" ui) eqn:Hk.
    + by apply scan_types_set.
    + apply scan_types_set. apply has_key_true. rewrite lookup_insert_eq. eauto.
  - apply IH.
Qed.

(** X1. The Fact Extractor amounts to three independent guarded
    assignments: [location] receives the first gazetteer entry that occurs
    in the message, [budget] the text built from the first match of the
    budget pattern, [property_type] the first type of the table one of whose
    keywords occurs in the lower-cased message, each only when the slot is
    not yet a key.  The [break] that leaves only the inner loop over the
    keywords does not let a later type overwrite the slot. *)
Theorem extraction_three_assignments `{Runtime} (message : text) (ui : slots) :
  _basic_info_extraction message ui
  = fill "property_type" (VStr <$> type_found (str_lower message))
      (fill "budget" (VStr <$> budget_found message)
         (fill "location" (VStr <$> location_found message) ui)).
Proof.
  unfold _basic_info_extraction.
  by rewrite scan_types_fill, scan_budget_fill, scan_locations_fill.
Qed.

Lemma extraction_fills `{Runtime} (message : text) (ui : slots) :
  _basic_info_extraction message ui
  = fill "property_type" (VStr <$> type_found (str_lower message))
      (fill "budget" (VStr <$> budget_found message)
         (fill "location" (VStr <$> location_found message) ui)).
Proof.
  unfold _basic_info_extraction.
  by rewrite scan_types_fill, scan_budget_fill, scan_locations_fill.
Qed.

(** X2. Running the Fact Extractor a second time on the same message
    changes nothing. *)
Theorem extraction_idempotent `{Runtime} (message : text) (ui : slots) :
  _basic_info_extraction message (_basic_info_extraction message ui)
  = _basic_info_extraction message ui.
Proof.
  rewrite !extraction_fills.
  set (t := VStr <$> type_found (str_lower message)).
  set (b := VStr <$> budget_found message).
  set (l := VStr <$> location_found message).
  rewrite (fill_commute "location" "property_type") by done.
  rewrite (fill_commute "location" "budget") by done.
  rewrite fill_twice.
  rewrite (fill_commute "budget" "property_type") by done.
  by rewrite fill_twice, fill_twice.
Qed.

(** X3. The Fact Extractor writes no slot other than [location], [budget]
    and [property_type]: [refers_to], [features] and any other key keep
    their binding or their absence. *)
Theorem extraction_frame `{Runtime} (message : text) (ui : slots) (j : string) :
  j <> "location" -> j <> "budget" -> j <> "property_type" ->
  _basic_info_extraction message ui !! j = ui !! j.
Proof.
  intros Hl Hb Ht. unfold _basic_info_extraction.
  rewrite scan_types_other by exact Ht.
  rewrite scan_budget_other by exact Hb.
  by apply scan_locations_other.
Qed.

Lemma extraction_frame_witness :
  let ui : slots := <["features" := VList [U "جراج"]]> ∅ in
  @_basic_info_extraction Sample.runtime (U "شقة في المعادي بـ 300 k") ui !! "features"
  = Some (VList [U "جراج"])
  /\ @_basic_info_extraction Sample.runtime (U "شقة في المعادي بـ 300 k") ui !! "refers_to"
     = None.
Proof.
  intros ui. split.
  - by rewrite (@extraction_frame Sample.runtime _ ui "features").
  - by rewrite (@extraction_frame Sample.runtime _ ui "refers_to").
Defined.

(** ** What the Fact Extractor stores *)

Lemma remove_comma_digits (ds : text) :
  forallb is_digit_or_comma ds = true ->
  forallb is_digit (remove_char comma ds) = true.
Proof.
  induction ds as [|c ds IH]; simpl; [reflexivity|].
  rewrite andb_true_iff. intros [Hc Hds]. unfold is_digit_or_comma in Hc.
  destruct (cp_eqb c comma) eqn:E; simpl; [by apply IH|].
  rewrite orb_false_r in Hc. by rewrite Hc, IH.
Qed.

Lemma remove_comma_head (d : N) (ds : text) :
  is_digit d = true ->
  remove_char comma (d :: ds) = d :: remove_char comma ds.
Proof.
  intros Hd. unfold remove_char. simpl.
  destruct (cp_eqb d comma) eqn:E; [|reflexivity].
  apply cp_eqb_eq in E. subst d. vm_compute in Hd. discriminate.
Qed.

Lemma unit_label_cases (unit : text) :
  unit_label unit = thousand_label
  \/ unit_label unit = million_label
  \/ unit_label unit = plain_label.
Proof.
  unfold unit_label.
  destruct (text_mem unit [U "k"; U "الف"]); [auto|].
  destruct (text_mem unit [U "m"; U "مليون"]); auto.
Qed.

(** The budget text of a match: the digits of group 1 without the commas,
    a space, and the label of the unit. *)
Lemma budget_found_spec (message b : text) :
  budget_found message = Some b ->
  exists f d ds unit,
    search budget_pattern message = Some f
    /\ group 1 (captures f) = Some (d :: ds)
    /\ group 2 (captures f) = Some unit
    /\ is_digit d = true
    /\ forallb is_digit_or_comma ds = true
    /\ unit ∈ unit_tokens
    /\ b = remove_char comma (d :: ds) ++ U " " ++ unit_label unit.
Proof.
  unfold budget_found.
  destruct (search budget_pattern message) as [f|] eqn:Hs; [|discriminate].
  destruct (budget_search_sound message f Hs)
    as (d & ds & ws & unit & _ & Hd & Hds & _ & Hin & H1 & H2).
  rewrite H1, H2. intros [= <-]. exists f, d, ds, unit. auto 10.
Qed.

Lemma extraction_lookup_budget `{Runtime} (message : text) (ui : slots) :
  ui !! "budget" = None ->
  _basic_info_extraction message ui !! "budget" = VStr <$> budget_found message.
Proof.
  intros Hnone. rewrite extraction_fills.
  rewrite (fill_lookup_ne "property_type" "budget") by done.
  rewrite fill_lookup, (fill_lookup_ne "location" "budget") by done.
  by rewrite Hnone.
Qed.

Lemma extraction_lookup_location `{Runtime} (message : text) (ui : slots) :
  ui !! "location" = None ->
  _basic_info_extraction message ui !! "location" = VStr <$> location_found message.
Proof.
  intros Hnone. rewrite extraction_fills.
  rewrite !(fill_lookup_ne _ "location") by done.
  by rewrite fill_lookup, Hnone.
Qed.

Lemma extraction_lookup_type `{Runtime} (message : text) (ui : slots) :
  ui !! "property_type" = None ->
  _basic_info_extraction message ui !! "property_type"
  = VStr <$> type_found (str_lower message).
Proof.
  intros Hnone. rewrite extraction_fills.
  rewrite fill_lookup, !(fill_lookup_ne _ "property_type") by done.
  by rewrite Hnone.
Qed.

(** X4. A budget that the Fact Extractor stores is a non-empty string of
    decimal digits, without commas, followed by a space and one of the
    three labels. *)
Theorem extracted_budget_normal_form `{Runtime} (message : text) (ui : slots)
  (v : value) :
  ui !! "budget" = None ->
  _basic_info_extraction message ui !! "budget" = Some v ->
  exists amount label,
    v = VStr (amount ++ U " " ++ label)
    /\ amount <> []
    /\ forallb is_digit amount = true
    /\ label ∈ [thousand_label; million_label; plain_label].
Proof.
  intros Hnone. rewrite (extraction_lookup_budget message ui Hnone).
  destruct (budget_found message) as [b|] eqn:Hb; [|discriminate].
  intros [= <-].
  destruct (budget_found_spec message b Hb)
    as (f & d & ds & unit & _ & _ & _ & Hd & Hds & _ & ->).
  exists (remove_char comma (d :: ds)), (unit_label unit).
  rewrite (remove_comma_head d ds Hd). split; [reflexivity|].
  split; [discriminate|]. split.
  - simpl. by rewrite Hd, remove_comma_digits.
  - destruct (unit_label_cases unit) as [-> | [-> | ->]];
      rewrite !elem_of_cons; auto.
Qed.

Lemma extracted_budget_normal_form_witness :
  @_basic_info_extraction Sample.runtime (U "معايا 1,250,000 جنيه") ∅ !! "budget"
  = Some (VStr (U "1250000 جنيه"))
  /\ exists amount label,
       VStr (U "1250000 جنيه") = VStr (amount ++ U " " ++ label)
       /\ amount <> []
       /\ forallb is_digit amount = true
       /\ label ∈ [thousand_label; million_label; plain_label].
Proof.
  split; [vm_compute; reflexivity|].
  apply (@extracted_budget_normal_form Sample.runtime (U "معايا 1,250,000 جنيه") ∅);
    [reflexivity | vm_compute; reflexivity].
Defined.

Lemma locations_nonempty (l : text) : In l locations -> l <> [].
Proof.
  intros Hin Hnil. subst l.
  assert (forallb (fun l => negb (text_eqb l [])) locations = true) as Hall
    by (vm_compute; reflexivity).
  rewrite forallb_forall in Hall. specialize (Hall _ Hin). discriminate.
Qed.

Lemma type_found_nonempty (ml t : text) : type_found ml = Some t -> t <> [].
Proof.
  unfold type_found.
  destruct (List.find _ property_types) as [[t' kws]|] eqn:E; [|discriminate].
  intros [= <-]. apply List.find_some in E as [Hin _]. intros Hnil. subst t'.
  assert (forallb (fun e => negb (text_eqb (fst e) [])) property_types = true)
    as Hall by (vm_compute; reflexivity).
  rewrite forallb_forall in Hall. specialize (Hall _ Hin). discriminate.
Qed.

Lemma truthy_str (s : text) : s <> [] -> truthy (VStr s) = true.
Proof. by destruct s. Qed.

(** X5. A value that the Fact Extractor stores in a required slot is
    truthy, so DISCOVERY does not count a slot filled by the extractor as
    missing. *)
Theorem extracted_values_truthy `{Runtime} (message : text) (ui : slots)
  (k : string) (v : value) :
  k ∈ ["location"; "budget"; "property_type"] ->
  ui !! k = None ->
  _basic_info_extraction message ui !! k = Some v ->
  truthy v = true /\ truthy_get k (_basic_info_extraction message ui) = true.
Proof.
  intros Hk Hnone Hv.
  assert (truthy v = true) as Ht; [|split; [exact Ht | unfold truthy_get; by rewrite Hv]].
  rewrite !elem_of_cons in Hk. destruct Hk as [->|[->|[->|Hk]]].
  - rewrite (extraction_lookup_location message ui Hnone) in Hv.
    unfold location_found in Hv.
    destruct (List.find _ locations) as [l|] eqn:E; [|discriminate].
    injection Hv as <-. apply List.find_some in E as [Hin _].
    by apply truthy_str, locations_nonempty.
  - rewrite (extraction_lookup_budget message ui Hnone) in Hv.
    destruct (budget_found message) as [b|] eqn:Hb; [|discriminate].
    injection Hv as <-.
    destruct (budget_found_spec message b Hb)
      as (f & d & ds & unit & _ & _ & _ & Hd & _ & _ & ->).
    rewrite (remove_comma_head d ds Hd). reflexivity.
  - rewrite (extraction_lookup_type message ui Hnone) in Hv.
    destruct (type_found (str_lower message)) as [t|] eqn:E; [|discriminate].
    injection Hv as <-. by apply truthy_str, (type_found_nonempty (str_lower message)).
  - by apply elem_of_nil in Hk.
Qed.

Lemma extracted_values_truthy_witness :
  truthy_get "property_type"
    (@_basic_info_extraction Sample.runtime (U "عايز Duplex") ∅) = true.
Proof.
  apply (@extracted_values_truthy Sample.runtime (U "عايز Duplex") ∅
           "property_type" (VStr (U "دوبلكس"))).
  - rewrite !elem_of_cons. auto.
  - reflexivity.
  - vm_compute. reflexivity.
Defined.

(** ** From the Fact Extractor to the Rule Engine *)











(** ** The Rule Engine: exceptions, feature advice, empty rule table *)


Lemma budget_logic_returns (rs : rules) (ui : slots) :
  container_slot "budget" ui = true -> exists advice, budget_logic rs ui = Ok advice.
Proof.
  unfold container_slot, budget_logic.
  destruct (ui !! "budget") as [[| | | |]|]; simpl; try discriminate; intros _;
    repeat match goal with
           | |- context [if ?c then _ else _] => destruct c
           end; simpl; eauto.
Qed.

Lemma rule_features_slot (ui : slots) :
  (container_slot "features" ui = true ->
   exists features, rule_features ui None = Ok features)
  /\ (container_slot "features" ui = false ->
      rule_features ui None = Raise TypeError).
Proof.
  unfold container_slot, rule_features. simpl.
  destruct (ui !! "features") as [[| | | |]|]; simpl; split; try discriminate; eauto.
Qed.



Lemma feature_logic_no_rules (ps : list budget_rule) (features : list text) :
  feature_logic (Rules ps []) features = [].
Proof. unfold feature_logic. induction features as [|f fs IH]; simpl; auto. Qed.

(** The budget advice is empty or the responses of one condition. *)
Lemma budget_logic_range (rs : rules) (ui : slots) (advice : list text) :
  budget_logic rs ui = Ok advice ->
  advice = [] \/ exists c, advice = budget_responses rs c.
Proof.
  unfold budget_logic.
  destruct (default (VStr []) (ui !! "budget")) as [| b | z | l | p];
    cbn [py_in re_findall mbind result_bind mret result_ret]; try discriminate.
  - generalize (contains million_word b), (contains thousand_word b),
      (findall digits_pattern b).
    intros [|] is_thousand runs; [intros [= <-]; eauto|].
    destruct is_thousand; [|intros [= <-]; eauto].
    destruct runs as [|first more]; cbn [index0 try_except mbind result_bind];
      [intros [= <-]; eauto|].
    destruct (int_of first) as [numeric|e]; cbn [try_except mbind result_bind];
      [|intros [= <-]; eauto].
    destruct (numeric <? 500)%Z; intros [= <-]; eauto.
  - generalize (text_mem million_word l), (text_mem thousand_word l).
    intros [|] [|]; cbn [try_except]; intros [= <-]; eauto.
  - generalize (text_mem million_word (property_keys p)),
      (text_mem thousand_word (property_keys p)).
    intros [|] [|]; cbn [try_except]; intros [= <-]; eauto.
Qed.

Lemma summary_response_of_advice `{Runtime} (rs : rules) (ui : slots)
  (advice : list text) :
  _apply_rule_logic rs ui None = Ok advice ->
  _summary_response rs ui
  = Ok (summary_header ++ nl ++ join nl (summary_lines ui)
        ++ advice_section advice ++ nl ++ summary_question).
Proof.
  intros Ha. unfold _summary_response. rewrite Ha.
  unfold mbind, result_bind, mret, result_ret, summary_header, summary_question,
    advice_section.
  reflexivity.
Qed.

(** X9. With an empty rule table, as after a missing rules file, SUMMARY
    has no advice section: when the budget and the features, if present,
    are strings, lists or dictionaries, the reply is the header, the lines
    of the summary and the closing question. *)
Theorem summary_without_rules `{Runtime} (ui : slots) :
  container_slot "budget" ui = true ->
  container_slot "features" ui = true ->
  _summary_response (Rules [] []) ui
  = Ok (summary_header ++ nl ++ join nl (summary_lines ui)
        ++ nl ++ summary_question).
Proof.
  intros Hb Hf.
  destruct (budget_logic_returns (Rules [] []) ui Hb) as [advice Ha].
  assert (advice = []) as ->.
  { destruct (budget_logic_range _ ui advice Ha) as [->|[c ->]]; reflexivity. }
  destruct (proj1 (rule_features_slot ui) Hf) as [features Hfe].
  pose proof (apply_rule_logic_split _ ui None [] features Ha Hfe) as Hr.
  rewrite feature_logic_no_rules in Hr.
  rewrite (summary_response_of_advice _ ui _ Hr).
  rewrite app_nil_l. reflexivity.
Qed.

Lemma summary_without_rules_witness :
  @_summary_response Sample.runtime (Rules [] [])
    (<["location" := VStr (U "حلوان")]> (<["budget" := VStr (U "3 مليون جنيه")]> ∅))
  = Ok (summary_header ++ nl
        ++ U "📍 الموقع: حلوان" ++ nl ++ U "💰 الميزانية: 3 مليون جنيه"
        ++ nl ++ summary_question).
Proof.
  rewrite (@summary_without_rules Sample.runtime); [|reflexivity|reflexivity].
  vm_compute. reflexivity.
Defined.

(** ** What the dispatcher writes *)

(** X10. SUGGESTION is the only phase in which the dispatcher writes the
    agent: in every other phase the agent is returned as it was.  In
    SUGGESTION with at least one matching property the selected properties
    become the matches and the last mentioned property the first match, and
    this is done before the rule engine is called, so it also holds when
    the rule engine raises. *)
Theorem dispatcher_writes `{Runtime} (rs : rules) (st : agent) (kn : knowledge) :
  (current_phase st <> SUGGESTION -> snd (_generate_response rs st kn) = st)
  /\ (current_phase st = SUGGESTION ->
      forall first others,
        relevant_properties kn = first :: others ->
        snd (_generate_response rs st kn)
        = {| user_info := user_info st;
             selected_properties := first :: others;
             last_mentioned_property := Some first;
             current_phase := current_phase st;
             conversation_history := conversation_history st |}
        /\ forall e,
             _apply_rule_logic rs (user_info st) (Some first) = Raise e ->
             fst (_generate_response rs st kn) = Raise e).
Proof.
  split.
  - intros Hphase. unfold _generate_response.
    destruct (current_phase st); try reflexivity. congruence.
  - intros Hphase first others Hkn. unfold _generate_response, _suggest_properties.
    rewrite Hphase, Hkn. cbn [snd fst]. split; [reflexivity|].
    intros e ->. reflexivity.
Qed.

Lemma dispatcher_writes_witness :
  let flat := Property (U "شقة") (U "المعادي") (PriceInt 900000) None in
  let st := {| user_info := <["budget" := VNone]> ∅;
               selected_properties := [];
               last_mentioned_property := None;
               current_phase := SUGGESTION;
               conversation_history := [] |} in
  let out := @_generate_response Sample.runtime Sample.sample_rules st
               (Knowledge [] [flat]) in
  fst out = Raise TypeError
  /\ selected_properties (snd out) = [flat]
  /\ last_mentioned_property (snd out) = Some flat.
Proof.
  intros flat st out.
  destruct (@dispatcher_writes Sample.runtime Sample.sample_rules st
              (Knowledge [] [flat])) as [_ Hs].
  destruct (Hs eq_refl flat [] eq_refl) as [Hst Hraise].
  split; [apply Hraise; reflexivity|].
  subst out. rewrite Hst. split; reflexivity.
Defined.

(** ** Invariants of the conversation *)




(** ** DISCOVERY, PERSUASION and the effect of one turn *)

Lemma discovery_labels_distinct :
  U "المكان" <> U "الميزانية" /\ U "المكان" <> U "نوع العقار"
  /\ U "الميزانية" <> U "نوع العقار".
Proof. repeat split; intros Heq; vm_compute in Heq; discriminate. Qed.

Lemma elem_of_optional (b : bool) (x y : text) :
  x ∈ (if negb b then [y] else []) <-> b = false /\ x = y.
Proof.
  destruct b; cbn [negb].
  - rewrite elem_of_nil. split; [contradiction | intros [? _]; discriminate].
  - rewrite list_elem_of_singleton. split; [auto | intros [_ ?]; assumption].
Qed.

Lemma discovery_missing_elem (ui : slots) (k : string) (label prefix : text) :
  (k, label, prefix) ∈ required_slots ->
  label ∈ discovery_missing ui <-> truthy_get k ui = false.
Proof.
  intros Hin. unfold discovery_missing.
  rewrite !elem_of_app, !elem_of_optional.
  destruct discovery_labels_distinct as (H12 & H13 & H23).
  unfold required_slots in Hin. revert Hin H12 H13 H23.
  generalize (U "المكان"), (U "الميزانية"), (U "نوع العقار"),
    (U "📍 الموقع: "), (U "💰 الميزانية: "), (U "🏠 النوع: ").
  intros l1 l2 l3 p1 p2 p3 Hin H12 H13 H23.
  rewrite !elem_of_cons in Hin.
  destruct Hin as [Heq|[Heq|[Heq|Hin]]]; [| | |by apply elem_of_nil in Hin];
    injection Heq as -> -> ->; intuition congruence.
Qed.

Lemma discovery_ready (ui : slots) (kn : knowledge) :
  _discovery_response ui kn = ready_message <-> discovery_missing ui = [].
Proof.
  unfold _discovery_response. split.
  - destruct (discovery_missing ui) as [|m ms]; [reflexivity|].
    intros Heq. apply (f_equal (hd 0%N)) in Heq. vm_compute in Heq. discriminate.
  - intros Hm. rewrite Hm. unfold ready_message. exact eq_refl.
Qed.

(** X12. DISCOVERY answers with the ready-to-review message exactly when
    the three required slots all hold truthy values; otherwise the label of
    a required slot is in the prompt list exactly when the slot is missing
    or falsy, and the labels come in the fixed order location, budget,
    property type. *)
Theorem discovery_prompts (ui : slots) (kn : knowledge) :
  (_discovery_response ui kn = ready_message
   <-> truthy_get "location" ui && truthy_get "budget" ui
       && truthy_get "property_type" ui = true)
  /\ (forall k label prefix,
        (k, label, prefix) ∈ required_slots ->
        label ∈ discovery_missing ui <-> truthy_get k ui = false)
  /\ discovery_missing ui `sublist_of` [U "المكان"; U "الميزانية"; U "نوع العقار"].
Proof.
  split; [|split].
  - rewrite discovery_ready. unfold discovery_missing.
    generalize (U "المكان"), (U "الميزانية"), (U "نوع العقار"). intros l1 l2 l3.
    destruct (truthy_get "location" ui), (truthy_get "budget" ui),
      (truthy_get "property_type" ui); cbn [negb app andb];
      split; intros Heq; try reflexivity; discriminate.
  - intros k label prefix. apply discovery_missing_elem.
  - unfold discovery_missing.
    generalize (U "المكان"), (U "الميزانية"), (U "نوع العقار"). intros l1 l2 l3.
    destruct (truthy_get "location" ui), (truthy_get "budget" ui),
      (truthy_get "property_type" ui); cbn [negb app];
      repeat first [ apply sublist_nil | apply sublist_skip | apply sublist_cons ].
Qed.

Lemma persuasion_response_dict (ui : slots) (p : property) :
  ui !! "refers_to" = Some (VDict p) -> persuasion_response ui = rebuttal p.
Proof. intros Hr. unfold persuasion_response. rewrite Hr. exact eq_refl. Qed.

Lemma persuasion_response_text (ui : slots) (s : text) :
  ui !! "refers_to" = Some (VStr s) -> persuasion_response ui = clarify_message.
Proof. intros Hr. unfold persuasion_response. rewrite Hr. exact eq_refl. Qed.

Lemma before_response_fields `{Runtime} `{Collaborators} (message : text) (st : agent) :
  user_info (fst (before_response message st))
  = resolve_reference message (last_mentioned_property st)
      (if decide (extracted_info (turn_reasoning message st) = ∅)
       then _basic_info_extraction message (user_info st)
       else extracted_info (turn_reasoning message st)
            ∪ _basic_info_extraction message (user_info st))
  /\ current_phase (fst (before_response message st))
     = default (current_phase st) (next_phase (turn_reasoning message st))
  /\ snd (before_response message st) = turn_knowledge message st.
Proof. repeat split. Qed.

(** X13. A turn on which the Reference Resolver matches and which is
    rendered in the PERSUASION phase answers about the property mentioned
    last: with a property shown before, the reply quotes its features (or
    the stock phrase when it has none) and its location; with none shown,
    the reply is the request to clarify. *)
Theorem persuasion_turn `{Runtime} `{Collaborators} (rs : rules)
  (message : text) (st : agent) :
  _is_reference_to_previous_property message = true ->
  default (current_phase st) (next_phase (turn_reasoning message st)) = PERSUASION ->
  fst (process_message rs message st)
  = Ok (match last_mentioned_property st with
        | Some p => rebuttal p
        | None => clarify_message
        end).
Proof.
  intros Href Hphase.
  destruct (before_response_fields message st) as (Hui & Hph & _).
  unfold process_message.
  destruct (before_response message st) as [st1 kn]. cbn [fst snd] in Hui, Hph.
  unfold _generate_response. rewrite Hph, Hphase. cbn [fst].
  f_equal. rewrite Hui. unfold resolve_reference. rewrite Href.
  destruct (last_mentioned_property st) as [p|].
  - apply persuasion_response_dict. by rewrite lookup_insert_eq.
  - apply (persuasion_response_text _ unresolved). by rewrite lookup_insert_eq.
Qed.

Lemma persuasion_turn_witness :
  let flat := Property (U "شقة") (U "المعادي") (PriceInt 900000) None in
  let st := {| user_info := ∅;
               selected_properties := [flat];
               last_mentioned_property := Some flat;
               current_phase := PERSUASION;
               conversation_history := [] |} in
  fst (@process_message Sample.runtime Sample.silent Sample.sample_rules
         (U "هي مش عاجباني") st)
  = Ok (U "ليه مش عاجبك؟ ده فيه مميزات رائعة وموقعه في المعادي.").
Proof.
  intros flat st.
  rewrite (@persuasion_turn Sample.runtime Sample.silent);
    [vm_compute; reflexivity | vm_compute; reflexivity | reflexivity].
Defined.

Lemma generate_response_phase `{Runtime} (rs : rules) (st : agent) (kn : knowledge) :
  current_phase (snd (_generate_response rs st kn)) = current_phase st.
Proof.
  unfold _generate_response. destruct (current_phase st) eqn:E; try (cbn [snd]; exact E).
  unfold _suggest_properties. destruct (relevant_properties kn); cbn [snd current_phase]; exact E.
Qed.

Lemma process_message_phase `{Runtime} `{Collaborators} (rs : rules)
  (message : text) (st : agent) :
  current_phase (snd (process_message rs message st))
  = current_phase (fst (before_response message st)).
Proof.
  unfold process_message.
  destruct (before_response message st) as [st1 kn]. cbn [fst].
  pose proof (generate_response_phase rs st1 kn) as Hp.
  destruct (_generate_response rs st1 kn) as [[response|e] st2]; cbn [snd] in *; exact Hp.
Qed.

(** X14. The effect of one turn on the slot store and on the phase.  A
    slot that the reasoning engine reports in [extracted_info] takes the
    reported value, overwriting what the Fact Extractor or an earlier turn
    stored; any other slot is as the Fact Extractor leaves it.  The one
    exception is [refers_to] on a turn on which the Reference Resolver
    matches.  The phase becomes the [next_phase] of the reasoning result
    when there is one and is kept otherwise. *)
Theorem turn_effect `{Runtime} `{Collaborators} (rs : rules) (message : text)
  (st : agent) (k : string) :
  let reasoning := turn_reasoning message st in
  let st' := snd (process_message rs message st) in
  (k <> "refers_to" \/ _is_reference_to_previous_property message = false ->
   user_info st' !! k
   = match extracted_info reasoning !! k with
     | Some v => Some v
     | None => _basic_info_extraction message (user_info st) !! k
     end)
  /\ current_phase st' = default (current_phase st) (next_phase reasoning).
Proof.
  intros reasoning st'. subst reasoning st'.
  destruct (before_response_fields message st) as (Hui & Hph & _).
  rewrite process_message_user_info, process_message_phase, Hui, Hph.
  split; [|reflexivity].
  intros Hk.
  assert (resolve_reference message (last_mentioned_property st)
            (if decide (extracted_info (turn_reasoning message st) = ∅)
             then _basic_info_extraction message (user_info st)
             else extracted_info (turn_reasoning message st)
                  ∪ _basic_info_extraction message (user_info st)) !! k
          = (if decide (extracted_info (turn_reasoning message st) = ∅)
             then _basic_info_extraction message (user_info st)
             else extracted_info (turn_reasoning message st)
                  ∪ _basic_info_extraction message (user_info st)) !! k) as ->.
  { unfold resolve_reference.
    destruct (_is_reference_to_previous_property message); [|reflexivity].
    destruct Hk as [Hk|Hk]; [|discriminate]. by rewrite lookup_insert_ne. }
  destruct (decide (extracted_info (turn_reasoning message st) = ∅)) as [He|_].
  - by rewrite He, lookup_empty.
  - destruct (extracted_info (turn_reasoning message st) !! k) as [v|] eqn:E.
    + by apply lookup_union_Some_l.
    + by apply lookup_union_r.
Qed.

Lemma turn_effect_witness :
  let st := {| user_info := <["budget" := VStr (U "300 ألف جنيه")]> ∅;
               selected_properties := [];
               last_mentioned_property := None;
               current_phase := DISCOVERY;
               conversation_history := [] |} in
  let st' := snd (@process_message Sample.runtime eager Sample.sample_rules
                    (U "عايز شقة في حلوان") st) in
  user_info st' !! "budget" = Some (VStr (U "900 ألف جنيه"))
  /\ user_info st' !! "location" = Some (VStr (U "حلوان"))
  /\ current_phase st' = SUMMARY.
Proof.
  intros st st'. subst st'. split; [|split].
  - rewrite (proj1 (@turn_effect Sample.runtime eager Sample.sample_rules _ st "budget"));
      [reflexivity | left; discriminate].
  - rewrite (proj1 (@turn_effect Sample.runtime eager Sample.sample_rules _ st "location"));
      [vm_compute; reflexivity | left; discriminate].
  - by rewrite (proj2 (@turn_effect Sample.runtime eager Sample.sample_rules _ st "budget")).
Defined.

(** ** The Reference Resolver *)

(** X15. The Reference Resolver answers true exactly when the lower-cased
    message holds one of the three short words هي, ده, دي followed, with no
    line feed in between, by one of the negative phrases: the two longer
    vague words end in ده and add nothing, and the words are found inside
    longer words as well. *)
Theorem resolver_short_words `{Runtime} (message : text) :
  _is_reference_to_previous_property message = true <->
  exists word pre mid phrase post,
    word ∈ [U "هي"; U "ده"; U "دي"]
    /\ phrase ∈ negative_phrases
    /\ forallb is_dot mid = true
    /\ str_lower message = pre ++ (word ++ mid ++ phrase) ++ post.
Proof.
  rewrite is_reference_spec. split.
  - intros (word & pre & mid & phrase & post & Hw & Hp & Hmid & Heq).
    unfold vague_words in Hw. rewrite !elem_of_cons in Hw.
    destruct Hw as [->|[->|[->|[->|[->|Hw]]]]]; [| | | | |by apply elem_of_nil in Hw].
    + exists (U "هي"), pre, mid, phrase, post. rewrite !elem_of_cons. auto 10.
    + exists (U "ده"), pre, mid, phrase, post. rewrite !elem_of_cons. auto 10.
    + exists (U "دي"), pre, mid, phrase, post. rewrite !elem_of_cons. auto 10.
    + exists (U "ده"), (pre ++ U "العقار "), mid, phrase, post.
      rewrite !elem_of_cons. repeat split; auto.
      rewrite Heq.
      assert (U "العقار ده" = U "العقار " ++ U "ده") as -> by (vm_compute; reflexivity).
      by rewrite <- !app_assoc.
    + exists (U "ده"), (pre ++ U "العرض "), mid, phrase, post.
      rewrite !elem_of_cons. repeat split; auto.
      rewrite Heq.
      assert (U "العرض ده" = U "العرض " ++ U "ده") as -> by (vm_compute; reflexivity).
      by rewrite <- !app_assoc.
  - intros (word & pre & mid & phrase & post & Hw & Hp & Hmid & Heq).
    exists word, pre, mid, phrase, post. repeat split; auto.
    unfold vague_words. rewrite !elem_of_cons in *.
    destruct Hw as [->|[->|[->|Hw]]]; auto 10; by apply elem_of_nil in Hw.
Qed.

(** ** More on the Catalog Matcher *)

Section ListingsMore.

Import RealEstateListings.
Context `{Frame}.



(** Without any filter [search] returns the first three rows of the
    catalog. *)
Lemma search_no_filter (df : catalog) :
  search df (Filters None None None None) = take 3 df.
Proof.
  rewrite search_filter. f_equal.
  induction df as [|r df IH]; [reflexivity|]. simpl. by rewrite IH.
Qed.

Lemma satisfies_ext (fs fs' : filters) :
  f_location fs = f_location fs' ->
  f_property_type fs = f_property_type fs' ->
  match f_budget fs, f_budget fs' with
  | Some v, Some v' => parse_budget v = parse_budget v'
  | Some v, None => exists e, parse_budget v = Raise e
  | None, Some v' => exists e, parse_budget v' = Raise e
  | None, None => True
  end ->
  f_bedrooms fs = f_bedrooms fs' ->
  forall r, satisfies fs r = satisfies fs' r.
Proof.
  intros Hl Ht Hb Hr r. rewrite !satisfies_tests.
  unfold location_test, type_test, budget_test, bedrooms_test.
  rewrite Hl, Ht, Hr. f_equal. f_equal.
  destruct (f_budget fs) as [v|], (f_budget fs') as [v'|].
  - by rewrite Hb.
  - destruct Hb as [e ->]. reflexivity.
  - destruct Hb as [e ->]. reflexivity.
  - reflexivity.
Qed.

(** X17. How [search] reads the budget filter.  A budget whose value does
    not parse as an integer (or an empty list) filters nothing: the result
    is that of the same filters without the budget.  A budget given as a
    list counts by its first element only. *)
Theorem search_budget_reading (df : catalog) (fs : filters) :
  (forall v e,
     f_budget fs = Some v -> parse_budget v = Raise e ->
     search df fs
     = search df (Filters (f_location fs) (f_property_type fs) None (f_bedrooms fs)))
  /\ (forall x others,
        f_budget fs = Some (Many (x :: others)) ->
        search df fs
        = search df (Filters (f_location fs) (f_property_type fs)
                       (Some (One x)) (f_bedrooms fs))).
Proof.
  split.
  - intros v e Hv Hp. rewrite !search_filter. f_equal. apply List.filter_ext.
    apply satisfies_ext; try reflexivity. rewrite Hv. cbn [f_budget]. eauto.
  - intros x others Hv. rewrite !search_filter. f_equal. apply List.filter_ext.
    apply satisfies_ext; try reflexivity. rewrite Hv. reflexivity.
Qed.

End ListingsMore.

Lemma search_budget_reading_witness :
  let fs := RealEstateListings.Filters None None
              (Some (RealEstateListings.Many
                       [RealEstateListings.SStr (U "750");
                        RealEstateListings.SStr (U "1")]))
              None in
  @RealEstateListings.search Sample.literal_frame Sample.five_flats fs
  = [Sample.flat 2 (U "المعادي") 700; Sample.flat 1 (U "المعادي") 400].
Proof.
  intros fs.
  rewrite (proj2 (@search_budget_reading Sample.literal_frame Sample.five_flats fs)
             (RealEstateListings.SStr (U "750")) [RealEstateListings.SStr (U "1")] eq_refl).
  vm_compute. reflexivity.
Defined.

(** ** An integer budget: [int(str(z))] *)











Section ListingsBudget.

Import RealEstateListings.
Context `{Frame}.




End ListingsBudget.


(** ** The hosts *)

Lemma generate_response_no_knowledge `{Runtime} (rs : rules) (st : agent) :
  snd (_generate_response rs st (Knowledge [] [])) = st
  /\ (current_phase st = SUGGESTION ->
      fst (_generate_response rs st (Knowledge [] [])) = Ok no_match_message).
Proof.
  unfold _generate_response, _suggest_properties. cbn [relevant_properties].
  split.
  - destruct (current_phase st); reflexivity.
  - intros ->. reflexivity.
Qed.

(** X19. The [process_message] that [app.py] installs never offers a
    property: it leaves the selected properties and the last mentioned
    property as they are, and a turn rendered in the SUGGESTION phase always
    answers with the no-match message.  It does not run the Fact Extractor
    or the Reference Resolver either: after the turn a slot holds what the
    reasoning engine reported for it, and otherwise what it held before. *)
Theorem patched_turn `{Runtime} `{Engine} (rs : rules) (message : text)
  (h : hosted) :
  let out := patched_process_message rs message h in
  let st := the_agent h in
  let st' := the_agent (snd out) in
  let reasoning := run message (manager_phase h)
                       (conversation_history st ++ [(User, message)])
                       (user_info st) in
  selected_properties st' = selected_properties st
  /\ last_mentioned_property st' = last_mentioned_property st
  /\ (forall k, user_info st' !! k
                = match extracted_info reasoning !! k with
                  | Some v => Some v
                  | None => user_info st !! k
                  end)
  /\ (current_phase st' = SUGGESTION -> fst out = Ok no_match_message).
Proof.
  intros out st st' reasoning. subst out st'. unfold patched_process_message.
  fold st. fold reasoning.
  set (ui := if decide (extracted_info reasoning = ∅) then user_info st
             else extracted_info reasoning ∪ user_info st).
  assert (forall k, ui !! k = match extracted_info reasoning !! k with
                              | Some v => Some v
                              | None => user_info st !! k
                              end) as Hui.
  { intros k. subst ui. destruct (decide (extracted_info reasoning = ∅)) as [He|_].
    - by rewrite He, lookup_empty.
    - destruct (extracted_info reasoning !! k) as [v|] eqn:E.
      + by apply lookup_union_Some_l.
      + by apply lookup_union_r. }
  destruct (match next_phase reasoning with
            | Some p =>
                if decide (Some p = manager_phase h)
                then (current_phase st, manager_phase h)
                else (p, Some p)
            | None => (current_phase st, manager_phase h)
            end) as [phase reported].
  set (st1 := {| user_info := ui;
                 selected_properties := selected_properties st;
                 last_mentioned_property := last_mentioned_property st;
                 current_phase := phase;
                 conversation_history := conversation_history st ++ [(User, message)] |}).
  destruct (generate_response_no_knowledge rs st1) as [Hsnd Hfst].
  destruct (_generate_response rs st1 (Knowledge [] [])) as [[response|e] st2];
    cbn [fst snd] in *; subst st2;
    cbn [the_agent fst snd selected_properties last_mentioned_property
         user_info current_phase];
    repeat split; auto.
Qed.

Lemma strip_blank (s : text) : forallb is_space s = true -> strip s = [].
Proof.
  intros Hs. unfold strip.
  assert (lstrip s = []) as ->; [|reflexivity].
  induction s as [|c s IH]; [reflexivity|]. cbn [forallb] in Hs.
  apply andb_true_iff in Hs as [Hc Hs]. cbn [lstrip]. rewrite Hc. by apply IH.
Qed.

(** X20. [respond] of [main.py] drops a message made of whitespace only:
    the chat history and the agent stay as they are and the agent is not
    called.  For any other message the user entry is appended before the
    agent runs, so it stays in the chat history when the turn raises, and
    the reply is appended after it when the turn returns.  [chat] hands
    every non-empty message to the agent, also one made of whitespace. *)
Theorem respond_blank `{Runtime} `{Collaborators} (rs : rules) (message : text)
  (history : list (role * text)) (st : agent) :
  (forallb is_space message = true ->
   respond rs message history st = (Ok tt, history, st))
  /\ (strip message <> [] ->
      respond rs message history st
      = match process_message rs message st with
        | (Ok response, st') =>
            (Ok tt, history ++ [(User, message)] ++ [(Assistant, response)], st')
        | (Raise e, st') => (Raise e, history ++ [(User, message)], st')
        end)
  /\ (message <> [] -> chat rs message st = process_message rs message st).
Proof.
  split; [|split].
  - intros Hs. unfold respond. by rewrite (strip_blank message Hs).
  - intros Hne. unfold respond. destruct (strip message) as [|c s]; [congruence|].
    destruct (process_message rs message st) as [[response|e] st'];
      [by rewrite <- app_assoc | reflexivity].
  - intros Hne. unfold chat. destruct message; [congruence | reflexivity].
Qed.

Lemma respond_blank_witness :
  @respond Sample.runtime Sample.silent Sample.sample_rules (U "   ") []
    Sample.new_agent
  = (Ok tt, [], Sample.new_agent)
  /\ conversation_history
       (snd (@chat Sample.runtime Sample.silent Sample.sample_rules (U "   ")
               Sample.new_agent))
     <> [].
Proof.
  split.
  - apply (@respond_blank Sample.runtime Sample.silent). vm_compute. reflexivity.
  - rewrite (proj2 (proj2 (@respond_blank Sample.runtime Sample.silent
                             Sample.sample_rules (U "   ") [] Sample.new_agent)));
      [vm_compute; discriminate | vm_compute; discriminate].
Defined.
